(** * Verification of sdcm/cql_stress_cassandra_stress_thread.py

    A shallow embedding of [CqlStressCassandraStressThread]: the command
    translation [create_stress_cmd] and the orchestration [_run_cs_stress].

    Python strings are modelled as lists of characters.  The character
    classes of the regular expressions ([\w], [\s], [\d], [0-9]) are
    those of ASCII text, and under IGNORECASE an ASCII letter equals its
    other case: a character above code 127 belongs to no class and
    equals itself only. *)

From Stdlib Require Import List Ascii String ZArith Lia Bool Arith.
From Stdlib Require Import Numbers.DecimalString Floats.SpecFloat.
Import ListNotations.

Local Open Scope list_scope.

(** * The program *)

(** ** Strings *)

Module Str.

Definition str := list ascii.

(** A literal. *)
Definition lit (s : string) : str := list_ascii_of_string s.

Definition code (c : ascii) : nat := nat_of_ascii c.

Definition in_range (lo hi : nat) (c : ascii) : bool :=
  (lo <=? code c) && (code c <=? hi).

(** [0-9] *)
Definition is_digit (c : ascii) : bool := in_range 48 57 c.

(** [\w] on ASCII text: letters, digits and the underscore. *)
Definition is_word (c : ascii) : bool :=
  in_range 97 122 c || in_range 65 90 c || is_digit c || (code c =? 95).

(** [\s] on ASCII text, which for a Python [str] pattern is
    [str.isspace]: tab, line feed, vertical tab, form feed, carriage
    return, the four separators 28..31 and the space. *)
Definition is_space (c : ascii) : bool :=
  in_range 9 13 c || in_range 28 32 c.

(** Lower-casing of an ASCII letter, as IGNORECASE compares. *)
Definition lower (c : ascii) : ascii :=
  if in_range 65 90 c then ascii_of_nat (code c + 32) else c.

Definition eqc (a b : ascii) : bool := Ascii.eqb a b.

(** Case-insensitive comparison of an input character with a pattern
    character. *)
Definition eqc_ci (a b : ascii) : bool := Ascii.eqb (lower a) (lower b).

(** [strip eq p s] reads the literal [p] at the start of [s], comparing
    characters with [eq]: the text matched and what follows it, [None]
    when [s] does not start with [p]. *)
Fixpoint strip (eq : ascii -> ascii -> bool) (p s : str) : option (str * str) :=
  match p with
  | [] => Some ([], s)
  | a :: p' =>
      match s with
      | [] => None
      | c :: s' =>
          if eq c a then
            match strip eq p' s' with
            | Some (m, rest) => Some (c :: m, rest)
            | None => None
            end
          else None
      end
  end.

(** [s.startswith(p)] *)
Definition starts_with (p s : str) : bool :=
  match strip eqc p s with Some _ => true | None => false end.

(** [p in s] *)
Fixpoint contains (p s : str) : bool :=
  starts_with p s ||
  match s with
  | [] => false
  | _ :: s' => contains p s'
  end.

(** The longest prefix of [s] in the class [cls], and what follows it:
    a greedy [[cls]*]. *)
Fixpoint span (cls : ascii -> bool) (s : str) : str * str :=
  match s with
  | [] => ([], [])
  | c :: s' =>
      if cls c then let (a, b) := span cls s' in (c :: a, b)
      else ([], s)
  end.

(** [sep.join(l)] *)
Fixpoint join (sep : str) (l : list str) : str :=
  match l with
  | [] => []
  | [x] => x
  | x :: l' => x ++ sep ++ join sep l'
  end.

(** The decimal rendering of an integer, as [str.format] and f-strings
    print an [int]. *)
Definition of_Z (z : Z) : str := lit (NilZero.string_of_int (Z.to_int z)).

(** *** Substitution of all matches, left to right

    [re.sub] and [str.replace] both scan the subject from the left,
    replace a match where one starts and resume after it.  A matcher
    returns the replacement text and the unmatched rest of the subject.
    None of the patterns of this program matches the empty string. *)
Section Sub.
Variable m : str -> option (str * str).

Fixpoint sub_fuel (n : nat) (s : str) : str :=
  match n with
  | 0 => s
  | S n' =>
      match s with
      | [] => []
      | c :: t =>
          match m s with
          | Some (r, rest) => r ++ sub_fuel n' rest
          | None => c :: sub_fuel n' t
          end
      end
  end.

Definition sub (s : str) : str := sub_fuel (List.length s) s.
End Sub.

(** *** Patterns

    The regular expressions of this program are sequences of literals,
    optional characters and greedy repetitions of a character class.  In
    each of them a repetition is followed by a literal or a class that
    shares no character with it, or ends the pattern, so that the greedy
    match is the only one and backtracking never finds another. *)
Inductive atom :=
| Lit (l : str)
| Opt (c : ascii)
| Star (cls : ascii -> bool)
| Plus (cls : ascii -> bool).

(** One atom at the start of [s]: the text it matches and the rest. *)
Definition step (eq : ascii -> ascii -> bool) (a : atom) (s : str)
  : option (str * str) :=
  match a with
  | Lit l => strip eq l s
  | Opt c =>
      match s with
      | x :: s' => if eq x c then Some ([x], s') else Some ([], s)
      | [] => Some ([], [])
      end
  | Star cls => Some (span cls s)
  | Plus cls =>
      match span cls s with
      | ([], _) => None
      | r => Some r
      end
  end.

(** A pattern at the start of [s]: the text matched by each atom, in
    order, and the rest of the subject. *)
Fixpoint pmatch (eq : ascii -> ascii -> bool) (p : list atom) (s : str)
  : option (list str * str) :=
  match p with
  | [] => Some ([], s)
  | a :: p' =>
      match step eq a s with
      | None => None
      | Some (seg, s') =>
          match pmatch eq p' s' with
          | None => None
          | Some (segs, rest) => Some (seg :: segs, rest)
          end
      end
  end.

(** A replacement template: literal text and references to the text
    matched by the atoms of the pattern. *)
Inductive titem := TLit (s : str) | TSeg (i : nat).

Definition render (tpl : list titem) (segs : list str) : str :=
  flat_map (fun it => match it with
                      | TLit s => s
                      | TSeg i => nth i segs []
                      end) tpl.

Record regex := { ignorecase : bool; atoms : list atom }.

Definition re_eq (r : regex) : ascii -> ascii -> bool :=
  if ignorecase r then eqc_ci else eqc.

Definition re_match (r : regex) (tpl : list titem) (s : str)
  : option (str * str) :=
  match pmatch (re_eq r) (atoms r) s with
  | Some (segs, rest) => Some (render tpl segs, rest)
  | None => None
  end.

(** [re.sub(r, tpl, s)] *)
Definition re_sub (r : regex) (tpl : list titem) (s : str) : str :=
  sub (re_match r tpl) s.

(** [s.replace(old, new)] for a non-empty [old]. *)
Definition replace (old new s : str) : str :=
  re_sub {| ignorecase := false; atoms := [Lit old] |} [TLit new] s.

End Str.

Import Str.

(** ** Exceptions, events and the monad of the orchestration

    A computation threads the trace of the calls it makes to its
    collaborators and ends with a value or with a raised exception. *)

Module Eff.

(** A Python exception: its class name, and whether the class derives
    from [Exception] (so that [except Exception] catches it). *)
Record exn := Exn { exn_name : string; is_Exception : bool }.

Definition IndexError := Exn "IndexError" true.
Definition UnboundLocalError := Exn "UnboundLocalError" true.

(** The context managers of the [with] statements. *)
Inductive ctx := CtxDocker | CtxExporter | CtxEvent | CtxSoftTimeout.

Inductive event :=
| EvMakedirs (dir : str)
| EvLogDebug (msg : str)
| EvLogInfo (msg : str)
| EvLogError (msg : str)
| EvAcquire (image opts : str)
| EvNew (c : ctx)
| EvEnter (c : ctx)
| EvExit (c : ctx)
| EvTranslate
| EvRun (cmd : str) (hard_timeout : Z) (log_file : str)
| EvConfigureFailure (e : exn).

Definition trace := list event.

Definition M (A : Type) : Type := trace -> trace * (exn + A).

Definition ret {A} (a : A) : M A := fun t => (t, inr a).

Definition bind {A B} (c : M A) (k : A -> M B) : M B :=
  fun t =>
    match c t with
    | (t', inl e) => (t', inl e)
    | (t', inr a) => k a t'
    end.

Definition raise {A} (e : exn) : M A := fun t => (t, inl e).

Definition emit (ev : event) : M unit := fun t => (t ++ [ev], inr tt).

(** A call to a collaborator that may raise: the event records a call
    that succeeded. *)
Definition call (ev : event) (outcome : option exn) : M unit :=
  match outcome with
  | Some e => raise e
  | None => emit ev
  end.

(** The value of an expression that may raise. *)
Definition eval {A} (e : exn) (v : option A) : M A :=
  match v with
  | Some a => ret a
  | None => raise e
  end.

(** [try: body except Exception as exc: handler exc] *)
Definition try_except {A} (body : M A) (handler : exn -> M A) : M A :=
  fun t =>
    match body t with
    | (t', inl e) => if is_Exception e then handler e t' else (t', inl e)
    | r => r
    end.

(** [with c: body], for a context manager whose [__enter__] and
    [__exit__] neither raise nor suppress an exception: [__exit__] runs
    on every way out of the body. *)
Definition with_ {A} (c : ctx) (body : M A) : M A :=
  fun t =>
    match body (t ++ [EvEnter c]) with
    | (t', r) => (t' ++ [EvExit c], r)
    end.

Definition run {A} (c : M A) : trace * (exn + A) := c [].

End Eff.

Import Eff.

Declare Scope eff_scope.
Delimit Scope eff_scope with eff.
Notation "x <- c ;; k" := (bind c (fun x => k))
  (at level 61, c at next level, right associativity) : eff_scope.
Notation "c ;;; k" := (bind c (fun _ => k))
  (at level 61, right associativity) : eff_scope.

(** ** The data of the thread *)

Record Node := { cql_address : str }.

Record Loader := { region : str; logdir : str; ip_address : str }.

(** The loader set: the [MULTI_REGION] flag of its test configuration
    and the topology lookup, which returns a dictionary from region to
    datacenter name or raises. *)
Record LoaderSet := {
  MULTI_REGION : bool;
  get_datacenter_name_per_region : list Node -> exn + (str -> option str)
}.

(** The attributes of [self] that the two methods read.  [node_list] is
    [None] or a list in the source; both are falsy when empty, so [None]
    is the empty list here.  [_build_log_file_id] and [shell_marker]
    come from the base class. *)
Record Thread := {
  stress_cmd : str;
  timeout : Z;
  stress_num : Z;
  keyspace_name : str;
  compaction_strategy : str;
  node_list : list Node;
  loader_set : LoaderSet;
  shell_marker : str;
  docker_image_name : str;
  _build_log_file_id : Z -> Z -> Z -> str
}.

(** Truth value of a string. *)
Definition truthy (s : str) : bool :=
  match s with [] => false | _ => true end.

(** ** The dialect translation *)

Module Translate.

Definition TOOL : str := Eval cbv in lit "cql-stress-cassandra-stress".
Definition NO_WARMUP : str := Eval cbv in lit "no-warmup".
Definition SCHEMA : str := Eval cbv in lit " -schema ".
Definition KEYSPACE_EQ : str := Eval cbv in lit "keyspace=".
Definition COMPACTION : str := Eval cbv in lit "compaction(".
Definition QUOTE : ascii := "'"%char.

(** [(cql-stress-cassandra-stress [\w]+)], replaced by [\1 no-warmup]. *)
Definition re_warmup : regex :=
  {| ignorecase := false;
     atoms := [Lit (TOOL ++ lit " "); Plus is_word] |}.
Definition tpl_warmup : list titem :=
  [TSeg 0; TSeg 1; TLit (lit " no-warmup")].

(** [ (\'?)n=[\s]*fixed\(([0-9]+)\)(\'?)] under IGNORECASE, replaced by
    [ \1n=\2\3]. *)
Definition re_col : regex :=
  {| ignorecase := true;
     atoms := [Lit (lit " "); Opt QUOTE; Lit (lit "n="); Star is_space;
               Lit (lit "fixed("); Plus is_digit; Lit (lit ")"); Opt QUOTE] |}.
Definition tpl_col : list titem :=
  [TLit (lit " "); TSeg 1; TLit (lit "n="); TSeg 5; TSeg 7].

(** [ fixed=[\s]*([0-9]+/s)], replaced by [ throttle=\1 fixed]. *)
Definition re_rate : regex :=
  {| ignorecase := false;
     atoms := [Lit (lit " fixed="); Star is_space; Plus is_digit;
               Lit (lit "/s")] |}.
Definition tpl_rate : list titem :=
  [TLit (lit " throttle="); TSeg 2; TSeg 3; TLit (lit " fixed")].

(** [ seq=[\s]*([\d]+\.\.[\d]+)], replaced by [ 'dist=SEQ(\1)']. *)
Definition re_pop : regex :=
  {| ignorecase := false;
     atoms := [Lit (lit " seq="); Star is_space; Plus is_digit;
               Lit (lit ".."); Plus is_digit] |}.
Definition tpl_pop : list titem :=
  [TLit (lit " 'dist=SEQ("); TSeg 2; TSeg 3; TSeg 4; TLit (lit ")'")].

(** Lines 44-47. *)
Definition add_no_warmup (cmd : str) : str :=
  if negb (contains NO_WARMUP cmd) then re_sub re_warmup tpl_warmup cmd else cmd.

(** Lines 49-54. *)
Definition inject_keyspace (name : str) (keyspace_idx : Z) (cmd : str) : str :=
  if truthy name then
    replace SCHEMA (lit " -schema keyspace=" ++ name ++ lit " ") cmd
  else if negb (contains KEYSPACE_EQ cmd) then
    replace SCHEMA
      (lit " -schema keyspace=keyspace" ++ of_Z keyspace_idx ++ lit " ") cmd
  else cmd.

(** Lines 56-58. *)
Definition inject_compaction (strategy : str) (cmd : str) : str :=
  if truthy strategy && negb (contains COMPACTION cmd) then
    replace SCHEMA
      (lit " -schema 'compaction(strategy=" ++ strategy ++ lit ")' ") cmd
  else cmd.

(** Lines 60-67. *)
Definition rewrite_col (cmd : str) : str :=
  if contains (lit "-col") cmd then re_sub re_col tpl_col cmd else cmd.

(** Lines 69-74. *)
Definition rewrite_rate (cmd : str) : str :=
  if contains (lit "-rate") cmd then re_sub re_rate tpl_rate cmd else cmd.

(** Lines 76-80. *)
Definition rewrite_pop (cmd : str) : str :=
  if contains (lit "-pop") cmd then re_sub re_pop tpl_pop cmd else cmd.

(** Lines 42-80: the rewriting of the command before the node list. *)
Definition rewrite_cmd (self : Thread) (keyspace_idx : Z) : str :=
  let cmd := stress_cmd self in
  let cmd := add_no_warmup cmd in
  let cmd := inject_keyspace (keyspace_name self) keyspace_idx cmd in
  let cmd := inject_compaction (compaction_strategy self) cmd in
  let cmd := rewrite_col cmd in
  let cmd := rewrite_rate cmd in
  rewrite_pop cmd.

Local Open Scope eff_scope.

(** Lines 84-93: the datacenter qualifier of a multi-region run. *)
Definition datacenter_qualifier (self : Thread) (loader : Loader) (cmd : str)
  : M str :=
  if MULTI_REGION (loader_set self) then
    match get_datacenter_name_per_region (loader_set self) (node_list self) with
    | inl e => raise e
    | inr datacenter_name_per_region =>
        match datacenter_name_per_region (region loader) with
        | Some (c :: dc) => ret (cmd ++ lit "datacenter=" ++ (c :: dc) ++ lit " ")
        | _ =>
            emit (EvLogError
                    (lit "Not found datacenter for loader region '"
                       ++ region loader ++ lit "'")) ;;;
            ret cmd
        end
    end
  else ret cmd.

(** Lines 82-96. *)
Definition add_nodes (self : Thread) (loader : Loader) (cmd : str) : M str :=
  match node_list self with
  | _ :: _ =>
      if negb (contains (lit "-node") cmd) then
        cmd <- datacenter_qualifier self loader (cmd ++ lit " -node ") ;;
        let node_ip_list := map cql_address (node_list self) in
        ret (cmd ++ join (lit ",") node_ip_list)
      else ret cmd
  | [] => ret cmd
  end.

(** [create_stress_cmd(self, cmd_runner, keyspace_idx, loader)].  The
    method does not use [cmd_runner]. *)
Definition create_stress_cmd (self : Thread) (cmd_runner : ctx)
    (keyspace_idx : Z) (loader : Loader) : M str :=
  add_nodes self loader (rewrite_cmd self keyspace_idx).

End Translate.

Import Translate.

(** ** The hard timeout

    [self.timeout + int(self.timeout * 0.05)] multiplies in binary64:
    the integer is converted to a float, the product with the float
    nearest to 0.05 is rounded to 53 significant bits, ties to even, and
    [int] drops the fraction.  A float is a mantissa and a binary
    exponent here; magnitudes stay below the overflow threshold 2^1024
    for any timeout that can be configured. *)

Module Timeout.

Local Open Scope Z_scope.

(** The float nearest to 0.05 is [M005 * 2^E005]. *)
Definition M005 : Z := 7205759403792794.
Definition E005 : Z := -57.

(** [m * 2^e], for [0 <= m], rounded to 53 significant bits. *)
Definition round53 (m e : Z) : Z * Z :=
  let n := Z.log2 m + 1 in
  if n <=? 53 then (m, e)
  else
    let s := n - 53 in
    let q := m / 2 ^ s in
    let r := m mod 2 ^ s in
    let half := 2 ^ (s - 1) in
    let q' := if (half <? r) || ((r =? half) && Z.odd q) then q + 1 else q in
    (q', e + s).

(** The integer part of [m * 2^e], for [0 <= m]. *)
Definition trunc (f : Z * Z) : Z :=
  let (m, e) := f in
  if 0 <=? e then m * 2 ^ e else m / 2 ^ (- e).

(** [abs(t) * 0.05] as a float. *)
Definition mul_005 (t : Z) : Z * Z :=
  let (m, e) := round53 (Z.abs t) 0 in
  round53 (m * M005) (e + E005).

(** [int(t * 0.05)] *)
Definition int_mul_005 (t : Z) : Z := Z.sgn t * trunc (mul_005 t).

(** Line 150. *)
Definition hard_timeout (t : Z) : Z := t + int_mul_005 t.

(** The same integer part computed with the multiplication of the
    Standard Library's specification of IEEE 754 binary64, against which
    the arithmetic above is checked on samples. *)
Definition ieee_int_mul_005 (t : Z) : Z :=
  match SFmul 53 1024 (binary_normalize 53 1024 t 0 false)
          (S754_finite false 7205759403792794 (-57)) with
  | S754_finite s m e => (if s then -1 else 1) * trunc (Zpos m, e)
  | _ => 0
  end.

Definition timeout_samples : list Z :=
  map Z.of_nat (seq 0 2000)
  ++ map (fun n => 2 ^ 53 - 500 + Z.of_nat n) (seq 0 1000)
  ++ [3600; 86400; 604800; 2 ^ 31; 2 ^ 50 - 1; 2 ^ 60 + 12345;
      123456789012345678901234567890; -10; -20; -3610].

End Timeout.

Import Timeout.

(** ** The orchestration *)

Record RunResult := { exit_status : Z; stdout : str }.

(** What the collaborators do in one invocation: each call returns or
    raises. *)
Record World := {
  makedirs : option exn;
  docker_start : option exn;
  exporter_new : option exn;
  event_new : option exn;
  docker_run : str -> Z -> exn + RunResult;
  on_failure : exn -> option exn
}.

(** The stress event that the caller receives. *)
Record StressEvent := {
  ev_node : Loader;
  ev_stress_cmd : str;
  ev_log_file_name : str;
  ev_errors : list exn
}.

Module Orchestrate.

Local Open Scope eff_scope.

Definition DQUOTE : str := [ascii_of_nat 34].

(** [s.split(p, 1)[1]]: what follows the first occurrence of [p]. *)
Fixpoint after_first (p s : str) : option str :=
  match strip eqc p s with
  | Some (_, rest) => Some rest
  | None =>
      match s with
      | [] => None
      | _ :: s' => after_first p s'
      end
  end.

(** [s.split(None, 1)[0]]: the first run of characters that are not
    white space. *)
Definition first_word (s : str) : option str :=
  let (_, s1) := span is_space s in
  match span (fun c => negb (is_space c)) s1 with
  | ([], _) => None
  | (w, _) => Some w
  end.

(** [os.path.join(dir, name)] for a relative [name]. *)
Definition path_join (dir name : str) : str :=
  match rev dir with
  | [] => name
  | c :: _ => if eqc c "/"%char then dir ++ name else dir ++ lit "/" ++ name
  end.

(** Modelled from the spec: [configure_event_on_failure] of the base
    class [CassandraStressThread], which is not part of this file.  It
    records the caught exception on the event; whether it returns or
    raises is left to the world. *)
Definition configure_event_on_failure (w : World) (stress_event : StressEvent)
    (exc : exn) : M StressEvent :=
  emit (EvConfigureFailure exc) ;;;
  match on_failure w exc with
  | Some e => raise e
  | None =>
      ret {| ev_node := ev_node stress_event;
             ev_stress_cmd := ev_stress_cmd stress_event;
             ev_log_file_name := ev_log_file_name stress_event;
             ev_errors := ev_errors stress_event ++ [exc] |}
  end.

(** [cmd_runner.run(cmd=node_cmd, timeout=hard_timeout, ...)] *)
Definition runner_run (w : World) (node_cmd : str) (hard : Z) (log : str)
  : M RunResult :=
  emit (EvRun node_cmd hard log) ;;;
  match docker_run w node_cmd hard with
  | inl e => raise e
  | inr r => ret r
  end.

(** Lines 148-156.  The local variable [result] is bound by the
    assignment of line 152 only: [None] is the unbound variable. *)
Definition run_block (self : Thread) (w : World) (node_cmd log : str)
    (cs_stress_event : StressEvent) : M (option RunResult * StressEvent) :=
  try_except
    (let hard := hard_timeout (timeout self) in
     result <- with_ CtxSoftTimeout (runner_run w node_cmd hard log) ;;
     ret (Some result, cs_stress_event))
    (fun exc =>
       ev <- configure_event_on_failure w cs_stress_event exc ;;
       ret (None, ev)).

(** [_run_cs_stress(self, loader, loader_idx, cpu_idx, keyspace_idx)] *)
Definition _run_cs_stress (self : Thread) (w : World) (loader : Loader)
    (loader_idx cpu_idx keyspace_idx : Z)
  : M (Loader * RunResult * StressEvent) :=
  call (EvMakedirs (logdir loader)) (makedirs w) ;;;
  rest <- eval IndexError (after_first TOOL (stress_cmd self)) ;;
  stress_cmd_opt <- eval IndexError (first_word rest) ;;
  let log_id := _build_log_file_id self loader_idx cpu_idx keyspace_idx in
  let log_file_name :=
    path_join (logdir loader)
      (lit "cql-stress-cassandra-stress-" ++ stress_cmd_opt ++ lit "-"
         ++ log_id ++ lit ".log") in
  emit (EvLogDebug (lit "cassandra-stress local log: " ++ log_file_name)) ;;;
  let cpu_options :=
    if (1 <? stress_num self)%Z
    then lit "--cpuset-cpus=" ++ DQUOTE ++ of_Z cpu_idx ++ DQUOTE
    else [] in
  call (EvAcquire (docker_image_name self)
          (cpu_options ++ lit " --network=host --label shell_marker="
             ++ shell_marker self ++ lit " --entrypoint /bin/bash"))
       (docker_start w) ;;;
  emit EvTranslate ;;;
  cmd <- create_stress_cmd self CtxDocker keyspace_idx loader ;;
  emit (EvLogInfo (lit "Stress command:" ++ [ascii_of_nat 10] ++ cmd)) ;;;
  let tag := lit "TAG: loader_idx:" ++ of_Z loader_idx ++ lit "-cpu_idx:"
               ++ of_Z cpu_idx ++ lit "-keyspace_idx:" ++ of_Z keyspace_idx in
  let node_cmd :=
    if (1 <? stress_num self)%Z
    then lit "STRESS_TEST_MARKER=" ++ shell_marker self ++ lit "; taskset -c "
           ++ of_Z cpu_idx ++ lit " " ++ cmd
    else lit "STRESS_TEST_MARKER=" ++ shell_marker self ++ lit "; " ++ cmd in
  let node_cmd := lit "echo " ++ tag ++ lit "; " ++ node_cmd in
  out <- with_ CtxDocker
    (call (EvNew CtxExporter) (exporter_new w) ;;;
     with_ CtxExporter
       (call (EvNew CtxEvent) (event_new w) ;;;
        with_ CtxEvent
          (run_block self w node_cmd log_file_name
             {| ev_node := loader; ev_stress_cmd := stress_cmd self;
                ev_log_file_name := log_file_name; ev_errors := [] |}))) ;;
  let (result, cs_stress_event) := (out : option RunResult * StressEvent) in
  result <- eval UnboundLocalError result ;;
  ret (loader, result, cs_stress_event).

End Orchestrate.

Import Orchestrate.

(** * The predicates of the statements *)

Module Props.

(** A pattern that starts with a non-empty literal consumes at least one
    character. *)
Definition starts_with_literal (r : regex) : bool :=
  match atoms r with
  | Lit (_ :: _) :: _ => true
  | _ => false
  end.

(** No match at any position of [s], read up to the end of [s ++ suf]. *)
Fixpoint no_match_in (m : str -> option (str * str)) (s suf : str) : Prop :=
  match s with
  | [] => True
  | c :: t => m (s ++ suf) = None /\ no_match_in m t suf
  end.

(** [y] is a barrier: a match that starts before [y] ends before it,
    and is the match found when the subject ends there. *)
Definition barrier (m : str -> option (str * str)) (y : str) : Prop :=
  forall x p,
    m (x :: p ++ y) =
    match m (x :: p) with
    | Some (out, rest) => Some (out, rest ++ y)
    | None => None
    end.

(** ** Barriers of a pattern

    The first characters [c0 c1 k] of a text [y] decide, for the
    patterns of this program, that no match can begin before [y] and
    extend into it. *)
Section Clear.
Variable eq : ascii -> ascii -> bool.
Variables c0 c1 : ascii.
Variable k : str.

(** The literal can be read along the known characters, as far as they
    go. *)
Fixpoint compat (l known : str) : bool :=
  match l, known with
  | a :: l', c :: known' => eq c a && compat l' known'
  | _, _ => true
  end.

(** No suffix of the literal can be read at the barrier. *)
Fixpoint lit_clear (l : str) : bool :=
  match l with
  | [] => true
  | _ :: l' => negb (compat l (c0 :: c1 :: k)) && lit_clear l'
  end.

(** The pattern matches neither at [c1] nor at the end of the
    subject. *)
Definition fails_on (p : list atom) : bool :=
  match p with
  | Lit (a :: _) :: _ => negb (eq c1 a)
  | Plus cls :: _ => negb (cls c1)
  | _ => false
  end.

(** A repetition that reads [c0] stops at [c1], where the pattern
    fails. *)
Definition cls_clear (cls : ascii -> bool) (p : list atom) : bool :=
  if cls c0 then negb (cls c1) && fails_on p else true.

Fixpoint clear (p : list atom) : bool :=
  match p with
  | [] => true
  | Lit l :: p' => lit_clear l && clear p'
  | Opt c :: p' => negb (eq c0 c) && clear p'
  | Star cls :: p' => cls_clear cls p' && clear p'
  | Plus cls :: p' => cls_clear cls p' && clear p'
  end.

(** The same for a pattern read from a position before [c0]. *)
Definition clear_top (p : list atom) : bool :=
  match p with
  | Lit (_ :: l) :: p' => lit_clear l && clear p'
  | _ => false
  end.
End Clear.

(** The result of a match on a subject that [y] follows. *)
Definition lift {A} (y : str) (r : option (A * str)) : option (A * str) :=
  match r with
  | Some (a, rest) => Some (a, rest ++ y)
  | None => None
  end.

(** A function on commands keeps the text [mid] where it occurs. *)
Definition keeps (f : str -> str) (mid : str) : Prop :=
  forall pre suf, exists pre' suf', f (pre ++ mid ++ suf) = pre' ++ mid ++ suf'.




Local Open Scope Z_scope.

(** The hard timeout as the specification words it: the soft timeout
    plus the ceiling of its twentieth. *)
Definition claimed_hard_timeout (t : Z) : Z := t + (t + 19) / 20.

Local Close Scope Z_scope.

(** The one case in which [create_stress_cmd] writes to the log: nodes
    are to be added, the run is multi-region, and the topology lookup
    returns no datacenter for the region of the loader. *)
Definition lookup_misses (self : Thread) (keyspace_idx : Z) (loader : Loader)
  : bool :=
  match node_list self with
  | [] => false
  | _ :: _ =>
      negb (contains (lit "-node") (rewrite_cmd self keyspace_idx))
      && MULTI_REGION (loader_set self)
      && match get_datacenter_name_per_region (loader_set self) (node_list self) with
         | inl _ => false
         | inr d =>
             match d (region loader) with
             | Some (_ :: _) => false
             | _ => true
             end
         end
  end.

Definition missing_datacenter_log (loader : Loader) : trace :=
  [EvLogError (lit "Not found datacenter for loader region '"
                 ++ region loader ++ lit "'")].

(** The states of an invocation that the trace shows. *)
Inductive phase := Provisioning | Translating | Running | Reporting | Done.

Definition phase_of (e : event) : option phase :=
  match e with
  | EvAcquire _ _ => Some Provisioning
  | EvTranslate => Some Translating
  | EvRun _ _ _ => Some Running
  | EvExit CtxEvent => Some Reporting
  | EvExit CtxDocker => Some Done
  | _ => None
  end.

Fixpoint phases (t : trace) : list phase :=
  match t with
  | [] => []
  | e :: t' =>
      match phase_of e with
      | Some p => p :: phases t'
      | None => phases t'
      end
  end.

(** The containers started and the containers torn down. *)
Definition acquired (t : trace) : nat :=
  List.length (filter (fun e => match e with EvAcquire _ _ => true | _ => false end) t).

Definition released (t : trace) : nat :=
  List.length (filter (fun e => match e with EvExit CtxDocker => true | _ => false end) t).

End Props.

Import Props.

(** * The threads and worlds of the scenarios *)

Definition plain_loader_set : LoaderSet :=
  {| MULTI_REGION := false;
     get_datacenter_name_per_region := fun _ => inr (fun _ => None) |}.

Definition thread (cmd name strategy : string) (nodes : list string) : Thread :=
  {| stress_cmd := lit cmd;
     timeout := 3600;
     stress_num := 1;
     keyspace_name := lit name;
     compaction_strategy := lit strategy;
     node_list := map (fun a => {| cql_address := lit a |}) nodes;
     loader_set := plain_loader_set;
     shell_marker := lit "marker";
     docker_image_name := lit "scylladb/cql-stress";
     _build_log_file_id := fun l c k =>
       lit "l" ++ of_Z l ++ lit "-c" ++ of_Z c ++ lit "-k" ++ of_Z k |}.

Definition loader1 : Loader :=
  {| region := lit "eu-west-1"; logdir := lit "/var/log/sct";
     ip_address := lit "10.0.0.9" |}.

(** The translated command of a thread, when the translation returns. *)
Definition translated (self : Thread) (keyspace_idx : Z) : option string :=
  match snd (run (create_stress_cmd self CtxDocker keyspace_idx loader1)) with
  | inr cmd => Some (string_of_list_ascii cmd)
  | inl _ => None
  end.


(** A multi-region thread whose topology lookup knows no datacenter. *)
Definition multi_region_thread : Thread :=
  {| stress_cmd := lit "cql-stress-cassandra-stress write n=10";
     timeout := 3600;
     stress_num := 1;
     keyspace_name := [];
     compaction_strategy := [];
     node_list := [{| cql_address := lit "10.0.0.1" |}];
     loader_set :=
       {| MULTI_REGION := true;
          get_datacenter_name_per_region := fun _ => inr (fun _ => None) |};
     shell_marker := lit "marker";
     docker_image_name := lit "scylladb/cql-stress";
     _build_log_file_id := fun _ _ _ => lit "id" |}.

(** A multi-region thread whose topology lookup raises. *)
Definition SSHError : exn := Exn "SSHException" true.

Definition unreachable_thread : Thread :=
  {| stress_cmd := lit "cql-stress-cassandra-stress write n=10";
     timeout := 3600;
     stress_num := 1;
     keyspace_name := [];
     compaction_strategy := [];
     node_list := [{| cql_address := lit "10.0.0.1" |}];
     loader_set :=
       {| MULTI_REGION := true;
          get_datacenter_name_per_region := fun _ => inl SSHError |};
     shell_marker := lit "marker";
     docker_image_name := lit "scylladb/cql-stress";
     _build_log_file_id := fun _ _ _ => lit "id" |}.

(** A world in which every collaborator succeeds and the run returns. *)
Definition calm_world : World :=
  {| makedirs := None; docker_start := None;
     exporter_new := None; event_new := None;
     docker_run := fun _ _ => inr {| exit_status := 0; stdout := [] |};
     on_failure := fun _ => None |}.

(** The run of the stress command times out. *)
Definition TimeoutError : exn := Exn "CommandTimedOut" true.

Definition timeout_world : World :=
  {| makedirs := None; docker_start := None;
     exporter_new := None; event_new := None;
     docker_run := fun _ _ => inl TimeoutError;
     on_failure := fun _ => None |}.

(** * Further predicates and scenarios *)

Definition NODE_FLAG : str := Eval cbv in lit "-node".

(** The runs of the stress command and the calls of the failure handler
    that a trace shows. *)
Definition runs (t : trace) : nat :=
  List.length (filter (fun e => match e with EvRun _ _ _ => true | _ => false end) t).

Definition handler_calls (t : trace) : nat :=
  List.length
    (filter (fun e => match e with EvConfigureFailure _ => true | _ => false end) t).


(** The shell command of lines 132-138 for a translated command. *)
Definition node_cmd_of (self : Thread) (loader_idx cpu_idx keyspace_idx : Z)
    (cmd : str) : str :=
  lit "echo TAG: loader_idx:" ++ of_Z loader_idx ++ lit "-cpu_idx:"
    ++ of_Z cpu_idx ++ lit "-keyspace_idx:" ++ of_Z keyspace_idx
    ++ lit "; STRESS_TEST_MARKER=" ++ shell_marker self ++ lit "; "
    ++ (if (1 <? stress_num self)%Z
        then lit "taskset -c " ++ of_Z cpu_idx ++ lit " " else [])
    ++ cmd.

(** An exception that [except Exception] does not catch. *)
Definition KeyboardInterrupt : exn := Exn "KeyboardInterrupt" false.

Definition interrupted_world : World :=
  {| makedirs := None; docker_start := None;
     exporter_new := None; event_new := None;
     docker_run := fun _ _ => inl KeyboardInterrupt;
     on_failure := fun _ => None |}.

(** * Facts about the string operations *)

Module StrFacts.

Lemma eqc_eq a b : eqc a b = true <-> a = b.
Proof. apply Ascii.eqb_eq. Qed.

Lemma eqc_refl a : eqc a a = true.
Proof. apply Ascii.eqb_refl. Qed.

Lemma strip_split eq p : forall s m rest,
  strip eq p s = Some (m, rest) ->
  s = m ++ rest /\ List.length m = List.length p.
Proof.
  induction p as [|a p IH]; intros s m rest H; simpl in H.
  - inversion H; subst. auto.
  - destruct s as [|c s]; [discriminate|].
    destruct (eq c a); [|discriminate].
    destruct (strip eq p s) as [[m' r']|] eqn:E; [|discriminate].
    inversion H; subst. destruct (IH _ _ _ E) as [-> Hl].
    simpl. auto.
Qed.

Lemma strip_eqc_inv p : forall s m rest,
  strip eqc p s = Some (m, rest) -> m = p /\ s = p ++ rest.
Proof.
  induction p as [|a p IH]; intros s m rest H; simpl in H.
  - inversion H; subst. auto.
  - destruct s as [|c s]; [discriminate|].
    destruct (eqc c a) eqn:Ec; [|discriminate].
    apply eqc_eq in Ec. subst c.
    destruct (strip eqc p s) as [[m' r']|] eqn:E; [|discriminate].
    inversion H; subst. destruct (IH _ _ _ E) as [-> ->]. auto.
Qed.

Lemma strip_eqc_app p rest : strip eqc p (p ++ rest) = Some (p, rest).
Proof.
  induction p as [|a p IH]; simpl; [reflexivity|].
  now rewrite eqc_refl, IH.
Qed.

Lemma starts_with_iff p s :
  starts_with p s = true <-> exists rest, s = p ++ rest.
Proof.
  unfold starts_with. split.
  - destruct (strip eqc p s) as [[m r]|] eqn:E; [|discriminate].
    intros _. apply strip_eqc_inv in E. exists r. tauto.
  - intros [rest ->]. now rewrite strip_eqc_app.
Qed.

Lemma contains_iff p : forall s,
  contains p s = true <-> exists pre suf, s = pre ++ p ++ suf.
Proof.
  induction s as [|c s IH].
  - simpl. rewrite orb_false_r, starts_with_iff. split.
    + intros [rest H]. exists [], rest. exact H.
    + intros (pre & suf & H). destruct pre; [|discriminate].
      exists suf. exact H.
  - simpl. rewrite orb_true_iff, starts_with_iff, IH. split.
    + intros [[rest H]|(pre & suf & H)].
      * exists [], rest. exact H.
      * exists (c :: pre), suf. now rewrite H.
    + intros (pre & suf & H). destruct pre as [|x pre].
      * left. exists suf. exact H.
      * right. inversion H. exists pre, suf. reflexivity.
Qed.

Lemma contains_cons p c s :
  contains p (c :: s) = starts_with p (c :: s) || contains p s.
Proof. reflexivity. Qed.

Lemma contains_app p pre suf : contains p (pre ++ p ++ suf) = true.
Proof. apply contains_iff. eauto. Qed.

Lemma contains_false_cons p c s :
  contains p (c :: s) = false ->
  starts_with p (c :: s) = false /\ contains p s = false.
Proof. simpl. apply orb_false_iff. Qed.

Lemma span_split cls : forall s a b,
  span cls s = (a, b) ->
  s = a ++ b /\ forallb cls a = true /\
  match b with [] => True | c :: _ => cls c = false end.
Proof.
  induction s as [|c s IH]; intros a b H; simpl in H.
  - inversion H; subst. auto.
  - destruct (cls c) eqn:Ec.
    + destruct (span cls s) as [a' b'] eqn:E. inversion H; subst.
      destruct (IH _ _ eq_refl) as (-> & Ha & Hb).
      simpl. rewrite Ec, Ha. auto.
    + inversion H; subst. simpl. auto.
Qed.

Lemma span_app cls a : forall rest,
  forallb cls a = true ->
  match rest with [] => True | c :: _ => cls c = false end ->
  span cls (a ++ rest) = (a, rest).
Proof.
  induction a as [|x a IH]; intros rest Ha Hr; simpl in *.
  - destruct rest as [|c rest]; [reflexivity|]. simpl. now rewrite Hr.
  - apply andb_true_iff in Ha as [Hx Ha]. now rewrite Hx, IH.
Qed.

Lemma step_split eq a s seg rest :
  step eq a s = Some (seg, rest) -> s = seg ++ rest.
Proof.
  destruct a as [l|c|cls|cls]; simpl; intros H.
  - now apply strip_split in H.
  - destruct s as [|x s]; [inversion H; reflexivity|].
    destruct (eq x c); inversion H; reflexivity.
  - inversion H as [E]. now apply span_split in E.
  - destruct (span cls s) as [[|x a'] b] eqn:E; [discriminate|].
    inversion H; subst. now apply span_split in E.
Qed.

Lemma pmatch_split eq p : forall s segs rest,
  pmatch eq p s = Some (segs, rest) -> s = List.concat segs ++ rest.
Proof.
  induction p as [|a p IH]; intros s segs rest H; simpl in H.
  - inversion H; reflexivity.
  - destruct (step eq a s) as [[seg s']|] eqn:E; [|discriminate].
    destruct (pmatch eq p s') as [[segs' r']|] eqn:E'; [|discriminate].
    inversion H; subst. apply step_split in E. apply IH in E'.
    simpl. rewrite <- app_assoc. congruence.
Qed.

Lemma re_match_shrinks r tpl s out rest :
  starts_with_literal r = true ->
  re_match r tpl s = Some (out, rest) ->
  List.length rest < List.length s.
Proof.
  unfold starts_with_literal, re_match. intros Hl H.
  destruct (atoms r) as [|[[|a l]| | |] p]; try discriminate.
  cbn [pmatch step] in H.
  destruct (strip (re_eq r) (a :: l) s) as [[m s']|] eqn:E; [|discriminate].
  destruct (pmatch (re_eq r) p s') as [[segs r']|] eqn:E'; [|discriminate].
  inversion H; subst. apply strip_split in E as [-> Hm].
  apply pmatch_split in E'. subst s'.
  rewrite !length_app, Hm. simpl. lia.
Qed.

(** *** The substitution *)

Section SubFacts.
Variable m : str -> option (str * str).
Hypothesis m_shrinks : forall s out rest,
  m s = Some (out, rest) -> List.length rest < List.length s.

Lemma sub_fuel_enough : forall n s,
  List.length s <= n -> sub_fuel m n s = sub m s.
Proof.
  unfold sub. intros n s. remember (List.length s) as k eqn:Hk.
  revert n s Hk. induction k as [k IH] using lt_wf_ind.
  intros n s Hk Hn. destruct s as [|c t].
  - simpl in Hk. subst k. destruct n; reflexivity.
  - simpl in Hk. subst k. destruct n as [|n]; [lia|]. simpl.
    destruct (m (c :: t)) as [[out rest]|] eqn:E.
    + pose proof (m_shrinks _ _ _ E) as Hs. simpl in Hs.
      rewrite (IH (List.length rest)) by lia.
      rewrite (IH (List.length rest) ltac:(lia) (List.length t) rest) by lia.
      reflexivity.
    + rewrite (IH (List.length t)) by lia. reflexivity.
Qed.

Lemma sub_nil : sub m [] = [].
Proof. reflexivity. Qed.

Lemma sub_match s out rest :
  m s = Some (out, rest) -> sub m s = out ++ sub m rest.
Proof.
  intros E. pose proof (m_shrinks _ _ _ E) as Hs.
  destruct s as [|c t]; [simpl in Hs; lia|].
  unfold sub at 1. simpl. rewrite E.
  rewrite sub_fuel_enough by (simpl in Hs; lia). reflexivity.
Qed.

Lemma sub_skip c t : m (c :: t) = None -> sub m (c :: t) = c :: sub m t.
Proof. intros E. unfold sub at 1. simpl. now rewrite E. Qed.

Lemma sub_keep s : forall suf,
  no_match_in m s suf -> sub m (s ++ suf) = s ++ sub m suf.
Proof.
  induction s as [|c t IH]; intros suf H; [reflexivity|].
  destruct H as [H1 H2]. simpl in *.
  now rewrite (sub_skip _ _ H1), (IH _ H2).
Qed.

Lemma sub_id s : no_match_in m s [] -> sub m s = s.
Proof.
  intros H. pose proof (sub_keep s [] H) as E.
  rewrite sub_nil, !app_nil_r in E. exact E.
Qed.

Lemma sub_app_barrier y : barrier m y ->
  forall pre, sub m (pre ++ y) = sub m pre ++ sub m y.
Proof.
  intros Hb pre. remember (List.length pre) as k eqn:Hk.
  revert pre Hk. induction k as [k IH] using lt_wf_ind.
  intros [|x p] Hk; [reflexivity|].
  simpl in Hk. pose proof (Hb x p) as E.
  destruct (m (x :: p)) as [[out rest]|] eqn:E1.
  - pose proof (m_shrinks _ _ _ E1) as Hs. simpl in Hs.
    rewrite (sub_match _ _ _ E1). simpl app.
    rewrite (sub_match _ _ _ E).
    rewrite (IH (List.length rest)) by (auto; lia).
    now rewrite app_assoc.
  - simpl app. rewrite (sub_skip _ _ E), (sub_skip _ _ E1).
    rewrite (IH (List.length p)) by (auto; lia). reflexivity.
Qed.
End SubFacts.

End StrFacts.

Import StrFacts.

(** ** Barriers of a pattern

    The first characters [c0 c1 k] of a text [y] decide, for the
    patterns of this program, that no match can begin before [y] and
    extend into it. *)

Module Barrier.

Section Clear.
Variable eq : ascii -> ascii -> bool.
Variables c0 c1 : ascii.
Variable k : str.

Variable y' : str.
Let y : str := c0 :: c1 :: k ++ y'.

Lemma compat_false l : forall known rest,
  l <> [] -> compat eq l known = false -> strip eq l (known ++ rest) = None.
Proof.
  induction l as [|a l IH]; intros known rest Hl H; [contradiction|].
  destruct known as [|c known]; [discriminate|].
  simpl in *. destruct (eq c a); [|reflexivity].
  simpl in H. destruct l as [|b l].
  - destruct known; discriminate.
  - rewrite IH; [reflexivity|discriminate|exact H].
Qed.

Lemma strip_barrier l : lit_clear eq c0 c1 k l = true ->
  forall s, strip eq l (s ++ y) = lift y (strip eq l s).
Proof.
  induction l as [|a l IH]; intros Hc s; [reflexivity|].
  cbn [lit_clear] in Hc. apply andb_true_iff in Hc as [Ha Hl].
  apply negb_true_iff in Ha.
  destruct s as [|x s].
  - cbn [app]. unfold y.
    change (c0 :: c1 :: k ++ y') with ((c0 :: c1 :: k) ++ y').
    rewrite compat_false; [reflexivity|discriminate|exact Ha].
  - simpl. destruct (eq x a); [|reflexivity].
    rewrite (IH Hl). destruct (strip eq l s) as [[m r]|]; reflexivity.
Qed.

Lemma fails_on_nil p : fails_on eq c1 p = true -> pmatch eq p [] = None.
Proof.
  destruct p as [|[[|a l]| | |cls] p]; try discriminate; reflexivity.
Qed.

Lemma fails_on_c1 p s : fails_on eq c1 p = true -> pmatch eq p (c1 :: s) = None.
Proof.
  destruct p as [|[[|a l]| | |cls] p]; try discriminate; simpl.
  - intros H. apply negb_true_iff in H. now rewrite H.
  - intros H. apply negb_true_iff in H. now rewrite H.
Qed.

(** The repetition read before the barrier. *)
Lemma span_barrier cls p s : cls_clear eq c0 c1 cls p = true ->
  let (a, b) := span cls s in
  (span cls (s ++ y) = (a, b ++ y)) \/
  (b = [] /\ fails_on eq c1 p = true /\
   span cls (s ++ y) = (a ++ [c0], c1 :: k ++ y')).
Proof.
  intros Hc. destruct (span cls s) as [a b] eqn:E.
  apply span_split in E as (-> & Ha & Hb).
  destruct b as [|c b].
  - rewrite app_nil_r. unfold cls_clear in Hc.
    destruct (cls c0) eqn:E0.
    + apply andb_true_iff in Hc as [H1 Hf]. apply negb_true_iff in H1.
      right. repeat split; auto.
      unfold y. change (c0 :: c1 :: k ++ y') with ([c0] ++ c1 :: k ++ y').
      rewrite app_assoc. apply span_app; [|exact H1].
      rewrite forallb_app, Ha. simpl. now rewrite E0.
    + left. apply span_app; [exact Ha|exact E0].
  - left. rewrite <- app_assoc. apply span_app; [exact Ha|exact Hb].
Qed.

Lemma pmatch_barrier p : clear eq c0 c1 k p = true ->
  forall s, pmatch eq p (s ++ y) = lift y (pmatch eq p s).
Proof.
  induction p as [|a p IH]; intros Hc s; [reflexivity|].
  destruct a as [l|c|cls|cls]; simpl in Hc;
    apply andb_true_iff in Hc as [Ha Hp]; specialize (IH Hp).
  - cbn [pmatch step]. rewrite (strip_barrier _ Ha).
    destruct (strip eq l s) as [[m r]|]; [|reflexivity].
    simpl. rewrite IH. destruct (pmatch eq p r) as [[? ?]|]; reflexivity.
  - apply negb_true_iff in Ha. destruct s as [|x s].
    + pose proof (IH []) as IH0. cbn [app] in IH0.
      cbn [pmatch step app]. fold y. unfold y at 1. rewrite Ha. fold y.
      rewrite IH0. destruct (pmatch eq p []) as [[? ?]|]; reflexivity.
    + cbn [pmatch step app]. destruct (eq x c).
      * rewrite IH. destruct (pmatch eq p s) as [[? ?]|]; reflexivity.
      * pose proof (IH (x :: s)) as IH1. cbn [app] in IH1. rewrite IH1.
        destruct (pmatch eq p (x :: s)) as [[? ?]|]; reflexivity.
  - cbn [pmatch step]. pose proof (span_barrier cls p s Ha) as Hs.
    destruct (span cls s) as [a b].
    destruct Hs as [Hs|(-> & Hf & Hs)]; rewrite Hs.
    + rewrite IH. destruct (pmatch eq p b) as [[? ?]|]; reflexivity.
    + now rewrite (fails_on_c1 _ _ Hf), (fails_on_nil _ Hf).
  - cbn [pmatch step]. pose proof (span_barrier cls p s Ha) as Hs.
    destruct (span cls s) as [a b].
    destruct Hs as [Hs|(-> & Hf & Hs)]; rewrite Hs.
    + destruct a as [|x a]; [reflexivity|].
      rewrite IH. destruct (pmatch eq p b) as [[? ?]|]; reflexivity.
    + destruct a as [|x a]; cbn [app];
        rewrite (fails_on_c1 _ _ Hf), ?(fails_on_nil _ Hf); reflexivity.
Qed.

Lemma pmatch_barrier_top p : clear_top eq c0 c1 k p = true ->
  forall x s, pmatch eq p (x :: s ++ y) = lift y (pmatch eq p (x :: s)).
Proof.
  intros Hc x s. destruct p as [|[[|a l]| | |] p]; try discriminate.
  simpl in Hc. apply andb_true_iff in Hc as [Hl Hp].
  cbn [pmatch step strip]. destruct (eq x a); [|reflexivity].
  rewrite (strip_barrier _ Hl).
  destruct (strip eq l s) as [[m r]|]; [|reflexivity].
  simpl. rewrite (pmatch_barrier _ Hp).
  destruct (pmatch eq p r) as [[? ?]|]; reflexivity.
Qed.
End Clear.

Lemma clear_top_literal r c0 c1 k :
  clear_top (re_eq r) c0 c1 k (atoms r) = true -> starts_with_literal r = true.
Proof.
  unfold clear_top, starts_with_literal.
  destruct (atoms r) as [|[[|a l]| | |] p]; auto.
Qed.

Lemma re_match_barrier r tpl c0 c1 k y' :
  clear_top (re_eq r) c0 c1 k (atoms r) = true ->
  barrier (re_match r tpl) (c0 :: c1 :: k ++ y').
Proof.
  intros Hc x p. unfold re_match.
  rewrite (pmatch_barrier_top _ _ _ _ y' _ Hc). unfold lift.
  destruct (pmatch (re_eq r) (atoms r) (x :: p)) as [[? ?]|]; reflexivity.
Qed.

(** The substitution splits at a barrier. *)
Lemma re_sub_barrier r tpl c0 c1 k y' pre :
  clear_top (re_eq r) c0 c1 k (atoms r) = true ->
  re_sub r tpl (pre ++ c0 :: c1 :: k ++ y') =
  re_sub r tpl pre ++ re_sub r tpl (c0 :: c1 :: k ++ y').
Proof.
  intros Hc. unfold re_sub. apply sub_app_barrier.
  - intros s out rest. apply re_match_shrinks.
    exact (clear_top_literal _ _ _ _ Hc).
  - now apply re_match_barrier.
Qed.

Lemma keeps_contains f mid s :
  keeps f mid -> contains mid s = true -> contains mid (f s) = true.
Proof.
  intros Hk H. apply contains_iff in H as (pre & suf & ->).
  destruct (Hk pre suf) as (pre' & suf' & ->). apply contains_app.
Qed.

Lemma keeps_id mid : keeps (fun s => s) mid.
Proof. intros pre suf. eauto. Qed.

Lemma keeps_if (b : str -> bool) f g mid :
  keeps f mid -> keeps g mid -> keeps (fun s => if b s then f s else g s) mid.
Proof.
  intros Hf Hg pre suf. destruct (b (pre ++ mid ++ suf)); auto.
Qed.

(** A substitution keeps a text that starts with a barrier and in which
    no match begins. *)
Lemma re_sub_keeps r tpl c0 c1 k :
  clear_top (re_eq r) c0 c1 k (atoms r) = true ->
  (forall suf, no_match_in (re_match r tpl) (c0 :: c1 :: k) suf) ->
  forall pre suf,
    re_sub r tpl (pre ++ (c0 :: c1 :: k) ++ suf) =
    re_sub r tpl pre ++ (c0 :: c1 :: k) ++ re_sub r tpl suf.
Proof.
  intros Hc Hn pre suf.
  change ((c0 :: c1 :: k) ++ suf) with (c0 :: c1 :: k ++ suf).
  rewrite (re_sub_barrier _ _ _ _ _ _ _ Hc). f_equal.
  change (c0 :: c1 :: k ++ suf) with ((c0 :: c1 :: k) ++ suf).
  unfold re_sub. now apply sub_keep.
Qed.

Lemma re_sub_keeps_mid r tpl c0 c1 k :
  clear_top (re_eq r) c0 c1 k (atoms r) = true ->
  (forall suf, no_match_in (re_match r tpl) (c0 :: c1 :: k) suf) ->
  keeps (re_sub r tpl) (c0 :: c1 :: k).
Proof.
  intros Hc Hn pre suf. rewrite (re_sub_keeps _ _ _ _ _ Hc Hn). eauto.
Qed.

End Barrier.

Import Barrier.

(** * The translation rules *)

Module TranslateFacts.

Lemma replace_shrinks old new : forall s out rest,
  old <> [] ->
  re_match {| ignorecase := false; atoms := [Lit old] |} [TLit new] s
    = Some (out, rest) ->
  List.length rest < List.length s.
Proof.
  intros s out rest Ho. apply re_match_shrinks.
  destruct old; [contradiction|reflexivity].
Qed.

(** The match of [str.replace]. *)
Lemma replace_match old new s :
  re_match {| ignorecase := false; atoms := [Lit old] |} [TLit new] s =
  match strip eqc old s with
  | Some (_, rest) => Some (new, rest)
  | None => None
  end.
Proof.
  unfold re_match. cbn [atoms re_eq ignorecase pmatch step].
  destruct (strip eqc old s) as [[m r]|]; [|reflexivity].
  unfold render. simpl. now rewrite app_nil_r.
Qed.

Lemma replace_no_match old new s :
  starts_with old s = false ->
  re_match {| ignorecase := false; atoms := [Lit old] |} [TLit new] s = None.
Proof.
  unfold starts_with. rewrite replace_match.
  destruct (strip eqc old s) as [[m r]|]; [discriminate|reflexivity].
Qed.

(** [s.replace(old, new)] is [s] when [old] does not occur in [s]. *)
Lemma replace_absent old new s :
  contains old s = false -> replace old new s = s.
Proof.
  intros H. unfold replace, re_sub. apply sub_id.
  induction s as [|c s IH]; [exact I|].
  apply contains_false_cons in H as [H1 H2]. split.
  - rewrite app_nil_r. now apply replace_no_match.
  - now apply IH.
Qed.

(** The leftmost occurrence of [old] is replaced, and the text before
    it is kept. *)
Lemma replace_leftmost old new : old <> [] -> forall s,
  contains old s = true ->
  exists pre suf,
    s = pre ++ old ++ suf /\
    replace old new s = pre ++ new ++ replace old new suf.
Proof.
  intros Ho. induction s as [|c s IH]; intros H.
  - simpl in H. rewrite orb_false_r in H.
    apply starts_with_iff in H as [rest H].
    destruct old; [contradiction|discriminate].
  - destruct (starts_with old (c :: s)) eqn:E.
    + apply starts_with_iff in E as [rest E]. exists [], rest.
      split; [exact E|]. unfold replace, re_sub. simpl app.
      apply sub_match.
      * intros s0 out r. now apply replace_shrinks.
      * rewrite replace_match, E, strip_eqc_app. reflexivity.
    + rewrite contains_cons, E in H. simpl in H.
      destruct (IH H) as (pre & suf & -> & Hr).
      exists (c :: pre), suf. split; [reflexivity|].
      unfold replace, re_sub in *. simpl app.
      rewrite sub_skip; [now rewrite Hr|].
      now apply replace_no_match.
Qed.

Lemma SCHEMA_nonempty : SCHEMA <> [].
Proof. discriminate. Qed.

End TranslateFacts.

Import TranslateFacts.

(** * Keyspace and compaction injection *)

(** C10.  A command without the token [ -schema ] passes the keyspace
    injection and the compaction-strategy injection unchanged, whatever
    keyspace name and compaction strategy are configured. *)
Theorem injections_need_schema_token
    (name strategy : str) (keyspace_idx : Z) (cmd : str) :
  contains SCHEMA cmd = false ->
  inject_keyspace name keyspace_idx cmd = cmd /\
  inject_compaction strategy cmd = cmd.
Proof.
  intros H. unfold inject_keyspace, inject_compaction. split.
  - destruct (truthy name); [now apply replace_absent|].
    destruct (negb (contains KEYSPACE_EQ cmd)); [now apply replace_absent|].
    reflexivity.
  - destruct (truthy strategy && negb (contains COMPACTION cmd));
      [now apply replace_absent|reflexivity].
Qed.

Lemma injections_need_schema_token_witness :
  let cmd := lit "cql-stress-cassandra-stress write n=100 -rate threads=4" in
  contains SCHEMA cmd = false /\
  inject_keyspace (lit "bar") 3 cmd = cmd /\
  inject_compaction (lit "LeveledCompactionStrategy") cmd = cmd.
Proof.
  split; [reflexivity|].
  apply (injections_need_schema_token (lit "bar")
           (lit "LeveledCompactionStrategy") 3). reflexivity.
Defined.



(** The scenario of the priority on the whole translation: a configured
    name is injected before the assignment of the command, which stays;
    without a configured name the command keeps its assignment and
    receives no default. *)
Example scenario_explicit_name :
  translated (thread "cql-stress-cassandra-stress write -schema keyspace=foo -rate threads=4"
                "bar" "" []) 3
  = Some "cql-stress-cassandra-stress write no-warmup -schema keyspace=bar keyspace=foo -rate threads=4"%string.
Proof. reflexivity. Qed.

Example scenario_existing_assignment :
  translated (thread "cql-stress-cassandra-stress write -schema keyspace=foo -rate threads=4"
                "" "" []) 3
  = Some "cql-stress-cassandra-stress write no-warmup -schema keyspace=foo -rate threads=4"%string.
Proof. reflexivity. Qed.

Example scenario_index_default :
  translated (thread "cql-stress-cassandra-stress write -schema " "" "" []) 3
  = Some "cql-stress-cassandra-stress write no-warmup -schema keyspace=keyspace3 "%string.
Proof. reflexivity. Qed.

(** * The rewriting rules *)

Module RewriteFacts.








Lemma gate_true (b : bool) (f : str -> str) s :
  b = true -> (if b then f s else s) = f s.
Proof. now intros ->. Qed.

(** *** The rate flag *)




(** *** The column count *)









End RewriteFacts.

Import RewriteFacts.

(** * A flag of the command through the rules *)

Module Scenario.

Ltac keeps_sub :=
  apply re_sub_keeps_mid;
  [ vm_compute; reflexivity
  | let suf := fresh "suf" in
    intros suf; cbn [no_match_in]; repeat split; vm_compute; reflexivity ].

Ltac keeps_replace := unfold replace; keeps_sub.

Ltac keeps_gate b f :=
  apply (keeps_if b f (fun s => s)); [|apply keeps_id].

Ltac keeps_rule :=
  lazymatch goal with
  | |- keeps add_no_warmup _ =>
      unfold add_no_warmup;
      keeps_gate (fun s => negb (contains NO_WARMUP s))
                 (re_sub re_warmup tpl_warmup); keeps_sub
  | |- keeps rewrite_col _ =>
      unfold rewrite_col;
      keeps_gate (contains (lit "-col")) (re_sub re_col tpl_col); keeps_sub
  | |- keeps rewrite_rate _ =>
      unfold rewrite_rate;
      keeps_gate (contains (lit "-rate")) (re_sub re_rate tpl_rate); keeps_sub
  | |- keeps rewrite_pop _ =>
      unfold rewrite_pop;
      keeps_gate (contains (lit "-pop")) (re_sub re_pop tpl_pop); keeps_sub
  | |- keeps (inject_keyspace ?name ?idx) _ =>
      unfold inject_keyspace;
      apply (keeps_if (fun _ => truthy name)
               (replace SCHEMA (lit " -schema keyspace=" ++ name ++ lit " "))
               (fun s => if negb (contains KEYSPACE_EQ s)
                         then replace SCHEMA
                                (lit " -schema keyspace=keyspace" ++ of_Z idx
                                   ++ lit " ") s
                         else s));
      [ keeps_replace
      | keeps_gate (fun s => negb (contains KEYSPACE_EQ s))
                   (replace SCHEMA
                      (lit " -schema keyspace=keyspace" ++ of_Z idx ++ lit " "));
        keeps_replace ]
  | |- keeps (inject_compaction ?strategy) _ =>
      unfold inject_compaction;
      keeps_gate (fun s => truthy strategy && negb (contains COMPACTION s))
                 (replace SCHEMA
                    (lit " -schema 'compaction(strategy=" ++ strategy
                       ++ lit ")' "));
      keeps_replace
  end.











End Scenario.

Import Scenario.

Module ScenarioFacts.










End ScenarioFacts.

Import ScenarioFacts.

(** * The rewriting rules on the command *)





(** The scenarios of the rules on the whole translation. *)
Example scenario_rate :
  translated (thread "cql-stress-cassandra-stress write n=10 -rate fixed=50000/s"
                "" "" []) 0
  = Some "cql-stress-cassandra-stress write no-warmup n=10 -rate throttle=50000/s fixed"%string.
Proof. reflexivity. Qed.

Example scenario_pop :
  translated (thread "cql-stress-cassandra-stress write n=10 -pop seq=1..1000000"
                "" "" []) 0
  = Some "cql-stress-cassandra-stress write no-warmup n=10 -pop 'dist=SEQ(1..1000000)'"%string.
Proof. reflexivity. Qed.

(** * Translating a translated command *)






(** * The hard timeout *)

Module TimeoutFacts.

Local Open Scope Z_scope.

(** The product with the float nearest to 0.05 has the integer part of
    the exact twentieth. *)
Lemma exact_product t :
  0 <= t < 2 ^ 50 -> (t * M005) / 2 ^ 57 = t / 20.
Proof.
  intros Ht. unfold M005.
  pose proof (Z.div_mod t 20 ltac:(lia)) as Hd.
  pose proof (Z.mod_pos_bound t 20 ltac:(lia)) as Hr.
  symmetry.
  apply Z.div_unique with (r := t * 7205759403792794 - 2 ^ 57 * (t / 20)); lia.
Qed.

Lemma round53_small m e : 0 <= m < 2 ^ 53 -> round53 m e = (m, e).
Proof.
  intros Hm. unfold round53.
  assert (H : Z.log2 m + 1 <= 53).
  { destruct (Z.eq_dec m 0) as [->|Hn]; [simpl; lia|].
    assert (Z.log2 m < 53) by (apply Z.log2_lt_pow2; lia). lia. }
  apply Z.leb_le in H. now rewrite H.
Qed.

(** Rounding to 53 bits moves the mantissa by at most one unit of the
    last place. *)
Lemma round53_large m e :
  2 ^ 53 <= m ->
  exists s q,
    s = Z.log2 m + 1 - 53 /\ 0 < s /\
    round53 m e = (q, e + s) /\ m / 2 ^ s <= q <= m / 2 ^ s + 1.
Proof.
  intros Hm. unfold round53.
  assert (H : 53 <= Z.log2 m) by (apply Z.log2_le_pow2; lia).
  assert (Hn : (Z.log2 m + 1 <=? 53) = false) by (apply Z.leb_gt; lia).
  rewrite Hn. eexists _, _. split; [reflexivity|]. split; [lia|].
  split; [reflexivity|].
  destruct ((2 ^ (Z.log2 m + 1 - 53 - 1) <? m mod 2 ^ (Z.log2 m + 1 - 53))
            || ((m mod 2 ^ (Z.log2 m + 1 - 53) =? 2 ^ (Z.log2 m + 1 - 53 - 1))
                && Z.odd (m / 2 ^ (Z.log2 m + 1 - 53)))); lia.
Qed.

(** The rounding written out above is the rounding of IEEE 754. *)
Example int_mul_005_is_ieee :
  forallb (fun t => ieee_int_mul_005 t =? int_mul_005 t) timeout_samples = true.
Proof. vm_compute. reflexivity. Qed.

Lemma int_mul_005_twentieth t :
  0 <= t < 2 ^ 50 -> int_mul_005 t = t / 20.
Proof.
  intros Ht. unfold int_mul_005, mul_005.
  destruct (Z.eq_dec t 0) as [->|Hn]; [reflexivity|].
  rewrite Z.sgn_pos, Z.abs_eq by lia.
  rewrite round53_small by lia. rewrite Z.mul_1_l. cbn [Z.add].
  pose proof (exact_product t Ht) as Hex.
  assert (HM : 2 ^ 52 <= M005 < 2 ^ 53) by (unfold M005; lia).
  destruct (Z_lt_le_dec (t * M005) (2 ^ 53)) as [Hs|Hl].
  - rewrite round53_small by nia. unfold trunc, E005. simpl Z.leb.
    cbv iota. exact Hex.
  - destruct (round53_large (t * M005) E005 Hl) as (s & q & Hs & Hs0 & -> & Hq).
    assert (Hlog : Z.log2 (t * M005) < 103).
    { apply Z.log2_lt_pow2; [nia|].
      replace (2 ^ 103) with (2 ^ 50 * 2 ^ 53) by reflexivity. nia. }
    assert (Hs50 : s <= 50) by lia.
    unfold trunc, E005.
    assert (Hneg : (0 <=? -57 + s) = false) by (apply Z.leb_gt; lia).
    rewrite Hneg.
    replace (- (-57 + s)) with (57 - s) by lia.
    set (a := 2 ^ s) in *. set (d := 2 ^ (57 - s)).
    assert (Ha : 0 < a <= 2 ^ 50).
    { split; [apply Z.pow_pos_nonneg; lia|].
      apply Z.pow_le_mono_r; lia. }
    assert (Hd : 0 < d) by (apply Z.pow_pos_nonneg; lia).
    assert (Had : a * d = 2 ^ 57).
    { unfold a, d. rewrite <- Z.pow_add_r by lia. f_equal. lia. }
    set (P := t * M005) in *.
    pose proof (Z.div_mod t 20 ltac:(lia)) as Hdm.
    pose proof (Z.mod_pos_bound t 20 ltac:(lia)) as Hr.
    set (k := t / 20) in *.
    assert (HP : P = k * (2 ^ 57 + 8) + (t mod 20) * M005)
      by (unfold P, M005; lia).
    assert (Hk : 0 <= k) by (unfold k; apply Z.div_pos; lia).
    assert (Hlo : k * d <= P / a).
    { apply Z.div_le_lower_bound; [lia|].
      replace (a * (k * d)) with (k * (a * d)) by ring. rewrite Had.
      unfold M005 in HP. lia. }
    assert (Hhi : P / a < (k + 1) * d - 1).
    { apply Z.div_lt_upper_bound; [lia|].
      replace (a * ((k + 1) * d - 1)) with ((k + 1) * (a * d) - a) by ring.
      rewrite Had. unfold M005 in HP. lia. }
    symmetry. apply Z.div_unique with (r := q - d * k); nia.
Qed.

End TimeoutFacts.

Import TimeoutFacts.

(** C3, amended.  The hard timeout is the soft timeout plus the integer
    part of its twentieth: [int] drops the fraction of the product where
    the claim takes its ceiling. *)
Theorem hard_timeout_floor (t : Z) :
  (0 <= t < 2 ^ 50)%Z -> hard_timeout t = (t + t / 20)%Z.
Proof.
  intros Ht. unfold hard_timeout. now rewrite int_mul_005_twentieth.
Qed.

Lemma hard_timeout_floor_witness :
  (0 <= 3610 < 2 ^ 50)%Z /\ hard_timeout 3610 = 3790%Z.
Proof.
  split; [lia|]. apply (hard_timeout_floor 3610). lia.
Defined.

(** C3 as stated fails: for a soft timeout of 10 seconds the hard
    timeout is 10, and the claimed value is 11. *)
Lemma hard_timeout_not_ceiling :
  hard_timeout 10 = 10%Z /\ claimed_hard_timeout 10 = 11%Z /\
  hard_timeout 10 <> claimed_hard_timeout 10.
Proof. repeat split. discriminate. Qed.

(** * The effects of the translation *)

Module EffectFacts.

(** The translation appends its log entries to the trace and is
    otherwise independent of the trace and of the command runner. *)
Lemma create_stress_cmd_frame (self : Thread) (r1 r2 : ctx)
    (keyspace_idx : Z) (loader : Loader) (t : trace) :
  create_stress_cmd self r1 keyspace_idx loader t =
  (t ++ (if lookup_misses self keyspace_idx loader
         then missing_datacenter_log loader else []),
   snd (run (create_stress_cmd self r2 keyspace_idx loader))).
Proof.
  unfold run, create_stress_cmd, add_nodes, datacenter_qualifier, lookup_misses,
    missing_datacenter_log, bind, ret, raise, emit.
  destruct (node_list self) as [|n ns]; [now rewrite app_nil_r|].
  destruct (contains (lit "-node") (rewrite_cmd self keyspace_idx));
    cbn [negb andb]; [now rewrite app_nil_r|].
  destruct (MULTI_REGION (loader_set self)); cbn [andb];
    [|now rewrite app_nil_r].
  destruct (get_datacenter_name_per_region (loader_set self) (n :: ns))
    as [e|d]; [now rewrite app_nil_r|].
  destruct (d (region loader)) as [[|c dc]|]; cbn [snd app];
    rewrite ?app_nil_r; reflexivity.
Qed.

End EffectFacts.

Import EffectFacts.



(** * The orchestration *)

Module OrchestrateFacts.

Lemma phases_app a b : phases (a ++ b) = phases a ++ phases b.
Proof.
  induction a as [|e a IH]; [reflexivity|].
  simpl. destruct (phase_of e); simpl; now rewrite IH.
Qed.

Lemma acquired_app a b : acquired (a ++ b) = acquired a + acquired b.
Proof. unfold acquired. now rewrite filter_app, length_app. Qed.

Lemma released_app a b : released (a ++ b) = released a + released b.
Proof. unfold released. now rewrite filter_app, length_app. Qed.

Lemma translation_log_phases self idx loader :
  phases (if lookup_misses self idx loader
          then missing_datacenter_log loader else []) = [].
Proof. destruct (lookup_misses self idx loader); reflexivity. Qed.

Ltac unfold_run :=
  unfold run, _run_cs_stress, run_block, runner_run, configure_event_on_failure,
    try_except, with_, call, eval, bind, ret, raise, emit.

Lemma translation_log_acquired self idx loader :
  acquired (if lookup_misses self idx loader
            then missing_datacenter_log loader else []) = 0.
Proof. destruct (lookup_misses self idx loader); reflexivity. Qed.

Lemma translation_log_released self idx loader :
  released (if lookup_misses self idx loader
            then missing_datacenter_log loader else []) = 0.
Proof. destruct (lookup_misses self idx loader); reflexivity. Qed.


Ltac count_trace :=
  rewrite ?phases_app, ?acquired_app, ?released_app,
    ?translation_log_phases, ?translation_log_acquired,
    ?translation_log_released;
  cbn [phases phase_of acquired released filter List.length app Nat.add].

End OrchestrateFacts.

Import OrchestrateFacts.



(** When the translation returns, the container that was started is torn
    down once, whatever happens afterwards. *)
Lemma released_when_translated (self : Thread) (w : World) (loader : Loader)
    (loader_idx cpu_idx keyspace_idx : Z) (cmd : str) :
  snd (run (create_stress_cmd self CtxDocker keyspace_idx loader)) = inr cmd ->
  let out := run (_run_cs_stress self w loader loader_idx cpu_idx keyspace_idx) in
  released (fst out) = acquired (fst out).
Proof.
  intros H. unfold_run.
  destruct (makedirs w); [reflexivity|].
  destruct (after_first TOOL (stress_cmd self)) as [rest|]; [|reflexivity].
  destruct (first_word rest) as [opt|]; [|reflexivity].
  destruct (docker_start w); [reflexivity|].
  rewrite (create_stress_cmd_frame self CtxDocker CtxDocker keyspace_idx loader).
  rewrite H.
  destruct (exporter_new w); [cbn [fst]; count_trace; reflexivity|].
  destruct (event_new w); [cbn [fst]; count_trace; reflexivity|].
  match goal with
  | |- context [docker_run w ?c ?h] => destruct (docker_run w c h) as [e|r]
  end.
  - destruct (is_Exception e); [destruct (on_failure w e)|];
      cbn [fst]; count_trace; reflexivity.
  - cbn [fst]. count_trace. reflexivity.
Qed.

(** C2 on the code: when the translation raises, after the container
    was started, the invocation ends with that exception, one container
    started and none torn down. *)
Theorem container_leaks_when_translation_raises
    (self : Thread) (w : World) (loader : Loader)
    (loader_idx cpu_idx keyspace_idx : Z) (rest opt : str) (e : exn) :
  makedirs w = None ->
  after_first TOOL (stress_cmd self) = Some rest ->
  first_word rest = Some opt ->
  docker_start w = None ->
  snd (run (create_stress_cmd self CtxDocker keyspace_idx loader)) = inl e ->
  let out := run (_run_cs_stress self w loader loader_idx cpu_idx keyspace_idx) in
  snd out = inl e /\ acquired (fst out) = 1 /\ released (fst out) = 0.
Proof.
  intros H1 H2 H3 H4 H5. unfold_run. rewrite H1, H2, H3, H4.
  rewrite (create_stress_cmd_frame self CtxDocker CtxDocker keyspace_idx loader).
  rewrite H5. cbn [fst snd]. count_trace. auto.
Qed.

Lemma container_leaks_witness :
  let out := run (_run_cs_stress unreachable_thread calm_world loader1 0 0 1) in
  snd out = inl SSHError /\ acquired (fst out) = 1 /\ released (fst out) = 0.
Proof.
  apply (container_leaks_when_translation_raises unreachable_thread calm_world
           loader1 0 0 1 (lit " write n=10") (lit "write") SSHError);
    reflexivity.
Defined.

(** When the run returns, the method returns the loader, the result of
    the run and an event without errors. *)
Lemma returns_when_run_returns
    (self : Thread) (w : World) (loader : Loader)
    (loader_idx cpu_idx keyspace_idx : Z) (rest opt cmd : str) (r : RunResult) :
  makedirs w = None ->
  after_first TOOL (stress_cmd self) = Some rest ->
  first_word rest = Some opt ->
  docker_start w = None ->
  snd (run (create_stress_cmd self CtxDocker keyspace_idx loader)) = inr cmd ->
  exporter_new w = None ->
  event_new w = None ->
  (forall node_cmd hard, docker_run w node_cmd hard = inr r) ->
  exists ev,
    snd (run (_run_cs_stress self w loader loader_idx cpu_idx keyspace_idx))
    = inr (loader, r, ev) /\ ev_errors ev = [].
Proof.
  intros H1 H2 H3 H4 H5 H6 H7 H8. unfold_run. rewrite H1, H2, H3, H4.
  rewrite (create_stress_cmd_frame self CtxDocker CtxDocker keyspace_idx loader).
  rewrite H5, H6, H7, H8. cbn [fst snd]. eexists. split; reflexivity.
Qed.

(** C1 on the code: when the run raises an exception that the handler
    catches, the handler is called with it, the [with] block ends with
    the container torn down, and the invocation ends with an exception:
    the one the handler raised, or else [UnboundLocalError] from the
    [return] statement, because [result] was never bound. *)
Theorem unbound_result_when_run_raises
    (self : Thread) (w : World) (loader : Loader)
    (loader_idx cpu_idx keyspace_idx : Z) (rest opt cmd : str) (e : exn) :
  makedirs w = None ->
  after_first TOOL (stress_cmd self) = Some rest ->
  first_word rest = Some opt ->
  docker_start w = None ->
  snd (run (create_stress_cmd self CtxDocker keyspace_idx loader)) = inr cmd ->
  exporter_new w = None ->
  event_new w = None ->
  (forall node_cmd hard, docker_run w node_cmd hard = inl e) ->
  is_Exception e = true ->
  let out := run (_run_cs_stress self w loader loader_idx cpu_idx keyspace_idx) in
  snd out = inl (match on_failure w e with
                 | Some e' => e'
                 | None => UnboundLocalError
                 end) /\
  In (EvConfigureFailure e) (fst out) /\
  released (fst out) = 1.
Proof.
  intros H1 H2 H3 H4 H5 H6 H7 H8 H9. unfold_run. rewrite H1, H2, H3, H4.
  rewrite (create_stress_cmd_frame self CtxDocker CtxDocker keyspace_idx loader).
  rewrite H5, H6, H7, H8, H9.
  destruct (on_failure w e); cbn [fst snd]; (split; [reflexivity|]); split;
    try (rewrite !in_app_iff; simpl; tauto); count_trace; reflexivity.
Qed.

Lemma unbound_result_witness :
  let out := run (_run_cs_stress
                    (thread "cql-stress-cassandra-stress write n=10" "" "" [])
                    timeout_world loader1 0 0 1) in
  snd out = inl UnboundLocalError /\
  In (EvConfigureFailure TimeoutError) (fst out) /\
  released (fst out) = 1.
Proof.
  apply (unbound_result_when_run_raises
           (thread "cql-stress-cassandra-stress write n=10" "" "" [])
           timeout_world loader1 0 0 1 (lit " write n=10") (lit "write")
           (lit "cql-stress-cassandra-stress write no-warmup n=10") TimeoutError);
    try reflexivity.
Defined.

(** * Further properties of the translation *)

Module MoreTranslateFacts.

(** A match of the warm-up pattern writes [no-warmup]. *)
Lemma warmup_match_writes s out rest :
  re_match re_warmup tpl_warmup s = Some (out, rest) ->
  exists pre, out = pre ++ NO_WARMUP.
Proof.
  unfold re_match. cbn [atoms re_warmup re_eq ignorecase pmatch].
  destruct (step eqc (Lit (TOOL ++ lit " ")) s) as [[seg0 s1]|]; [|discriminate].
  destruct (step eqc (Plus is_word) s1) as [[seg1 s2]|]; [|discriminate].
  intros H. inversion H; subst. unfold render, tpl_warmup. cbn [flat_map nth].
  exists (seg0 ++ seg1 ++ lit " "). rewrite <- !app_assoc. reflexivity.
Qed.

Lemma warmup_shrinks s out rest :
  re_match re_warmup tpl_warmup s = Some (out, rest) ->
  List.length rest < List.length s.
Proof. now apply re_match_shrinks. Qed.

Lemma contains_cons_r p c s : contains p s = true -> contains p (c :: s) = true.
Proof. intros H. rewrite contains_cons, H. apply orb_true_r. Qed.

(** The substitution of the warm-up pattern finds no match, or writes
    [no-warmup]. *)
Lemma warmup_sub_cases : forall s,
  re_sub re_warmup tpl_warmup s = s \/
  contains NO_WARMUP (re_sub re_warmup tpl_warmup s) = true.
Proof.
  intros s. remember (List.length s) as n eqn:Hn. revert s Hn.
  induction n as [n IH] using lt_wf_ind. intros [|c t] Hn; [now left|].
  unfold re_sub in *.
  destruct (re_match re_warmup tpl_warmup (c :: t)) as [[out rest]|] eqn:E.
  - right. rewrite (sub_match _ warmup_shrinks _ _ _ E).
    destruct (warmup_match_writes _ _ _ E) as [pre ->].
    rewrite <- app_assoc. apply contains_app.
  - rewrite (sub_skip _ _ _ E). simpl in Hn.
    destruct (IH (List.length t) ltac:(lia) t eq_refl) as [H|H].
    + left. now rewrite H.
    + right. now apply contains_cons_r.
Qed.

Lemma contains_new_schema (frag suf pre : str) (key : str) :
  contains key frag = true -> contains key (pre ++ frag ++ suf) = true.
Proof.
  intros H. apply contains_iff in H as (a & b & ->).
  apply contains_iff. exists (pre ++ a), (b ++ suf).
  now rewrite <- !app_assoc.
Qed.

End MoreTranslateFacts.

Import MoreTranslateFacts.

(** X1.  The warm-up rule is idempotent: applied to its own result it
    changes nothing, whatever the command. *)
Theorem add_no_warmup_idempotent (cmd : str) :
  add_no_warmup (add_no_warmup cmd) = add_no_warmup cmd.
Proof.
  assert (Hid : forall c, contains NO_WARMUP c = true -> add_no_warmup c = c).
  { intros c Hc. unfold add_no_warmup. now rewrite Hc. }
  destruct (contains NO_WARMUP cmd) eqn:E.
  - now rewrite !(Hid cmd E).
  - assert (Hs : add_no_warmup cmd = re_sub re_warmup tpl_warmup cmd).
    { unfold add_no_warmup. now rewrite E. }
    destruct (warmup_sub_cases cmd) as [H|H].
    + rewrite Hs, H. rewrite <- H at 2. exact Hs.
    + rewrite Hs. now apply Hid.
Qed.

(** X2.  The compaction injection and the injection of the default
    keyspace are idempotent: a second application finds the clause that
    the first one wrote, or the missing [ -schema ] token again. *)
Theorem default_injections_idempotent
    (strategy : str) (keyspace_idx : Z) (cmd : str) :
  inject_compaction strategy (inject_compaction strategy cmd)
    = inject_compaction strategy cmd /\
  inject_keyspace [] keyspace_idx (inject_keyspace [] keyspace_idx cmd)
    = inject_keyspace [] keyspace_idx cmd.
Proof.
  split.
  - destruct (truthy strategy && negb (contains COMPACTION cmd)) eqn:E.
    + assert (R : inject_compaction strategy cmd =
                  replace SCHEMA
                    (lit " -schema 'compaction(strategy=" ++ strategy ++ lit ")' ")
                    cmd)
        by (unfold inject_compaction; now rewrite E).
      rewrite R. destruct (contains SCHEMA cmd) eqn:Es.
      * destruct (replace_leftmost SCHEMA
                    (lit " -schema 'compaction(strategy=" ++ strategy ++ lit ")' ")
                    SCHEMA_nonempty cmd Es) as (pre & suf & _ & Hr).
        rewrite Hr. unfold inject_compaction.
        rewrite (contains_new_schema _ _ pre COMPACTION).
        -- cbn [negb]. now rewrite andb_false_r.
        -- exact (contains_app COMPACTION (lit " -schema '")
                    (lit "strategy=" ++ strategy ++ lit ")' ")).
      * rewrite (replace_absent _ _ _ Es). rewrite R. now apply replace_absent.
    + assert (R : inject_compaction strategy cmd = cmd)
        by (unfold inject_compaction; now rewrite E).
      now rewrite !R.
  - destruct (contains KEYSPACE_EQ cmd) eqn:E.
    + assert (R : inject_keyspace [] keyspace_idx cmd = cmd)
        by (unfold inject_keyspace; cbn [truthy]; now rewrite E).
      now rewrite !R.
    + assert (R : inject_keyspace [] keyspace_idx cmd =
                  replace SCHEMA
                    (lit " -schema keyspace=keyspace" ++ of_Z keyspace_idx
                       ++ lit " ") cmd)
        by (unfold inject_keyspace; cbn [truthy]; now rewrite E).
      rewrite R. destruct (contains SCHEMA cmd) eqn:Es.
      * destruct (replace_leftmost SCHEMA
                    (lit " -schema keyspace=keyspace" ++ of_Z keyspace_idx ++ lit " ")
                    SCHEMA_nonempty cmd Es) as (pre & suf & _ & Hr).
        rewrite Hr. unfold inject_keyspace. cbn [truthy].
        rewrite (contains_new_schema _ _ pre KEYSPACE_EQ); [reflexivity|].
        exact (contains_app KEYSPACE_EQ (lit " -schema ")
                 (lit "keyspace" ++ of_Z keyspace_idx ++ lit " ")).
      * rewrite (replace_absent _ _ _ Es). rewrite R. now apply replace_absent.
Qed.

Module WarmupPopFacts.






End WarmupPopFacts.

Import WarmupPopFacts.





Module InjectFacts.

(** Without the token [ -schema ] both injections return their subject. *)
Lemma injections_absent (name strategy : str) (keyspace_idx : Z) (cmd : str) :
  contains SCHEMA cmd = false ->
  inject_keyspace name keyspace_idx cmd = cmd /\
  inject_compaction strategy cmd = cmd.
Proof.
  intros H. unfold inject_keyspace, inject_compaction. split.
  - destruct (truthy name); [now apply replace_absent|].
    destruct (negb (contains KEYSPACE_EQ cmd)); [now apply replace_absent|].
    reflexivity.
  - destruct (truthy strategy && negb (contains COMPACTION cmd));
      [now apply replace_absent|reflexivity].
Qed.

End InjectFacts.

Import InjectFacts.

(** * Further properties of the node list *)

Module NodeFacts.

Lemma warmup_keeps_node : keeps add_no_warmup NODE_FLAG.
Proof. keeps_rule. Qed.

Lemma keyspace_keeps_node name idx : keeps (inject_keyspace name idx) NODE_FLAG.
Proof. keeps_rule. Qed.

Lemma compaction_keeps_node strategy : keeps (inject_compaction strategy) NODE_FLAG.
Proof. keeps_rule. Qed.

Lemma col_keeps_node : keeps rewrite_col NODE_FLAG.
Proof. keeps_rule. Qed.

Lemma rate_keeps_node : keeps rewrite_rate NODE_FLAG.
Proof. keeps_rule. Qed.

Lemma pop_keeps_node : keeps rewrite_pop NODE_FLAG.
Proof. keeps_rule. Qed.

(** A [-node] flag of the command is a [-node] flag of the rewritten
    command. *)
Lemma rewrite_cmd_keeps_node self idx :
  contains NODE_FLAG (stress_cmd self) = true ->
  contains NODE_FLAG (rewrite_cmd self idx) = true.
Proof.
  intros H. unfold rewrite_cmd.
  apply (keeps_contains _ _ _ pop_keeps_node).
  apply (keeps_contains _ _ _ rate_keeps_node).
  apply (keeps_contains _ _ _ col_keeps_node).
  apply (keeps_contains _ _ _ (compaction_keeps_node _)).
  apply (keeps_contains _ _ _ (keyspace_keeps_node _ _)).
  apply (keeps_contains _ _ _ warmup_keeps_node). exact H.
Qed.

End NodeFacts.

Import NodeFacts.

(** X5.  A [-node] flag in the command wins over the node list: the
    translation returns the rewritten command without adding nodes, does
    not consult the topology lookup, and so returns even when the lookup
    would raise, and writes nothing to the log. *)
Theorem existing_node_flag_wins (self : Thread) (cmd_runner : ctx)
    (keyspace_idx : Z) (loader : Loader) (t : trace) :
  contains (lit "-node") (stress_cmd self) = true ->
  create_stress_cmd self cmd_runner keyspace_idx loader t
  = (t, inr (rewrite_cmd self keyspace_idx)).
Proof.
  intros H. unfold create_stress_cmd, add_nodes.
  change (lit "-node") with NODE_FLAG in *.
  rewrite (rewrite_cmd_keeps_node self keyspace_idx H).
  destruct (node_list self); reflexivity.
Qed.

Lemma existing_node_flag_wins_witness :
  create_stress_cmd
    {| stress_cmd := lit "cql-stress-cassandra-stress write n=10 -node 10.0.0.7";
       timeout := 3600; stress_num := 1; keyspace_name := [];
       compaction_strategy := [];
       node_list := [{| cql_address := lit "10.0.0.1" |}];
       loader_set :=
         {| MULTI_REGION := true;
            get_datacenter_name_per_region := fun _ => inl SSHError |};
       shell_marker := lit "marker";
       docker_image_name := lit "scylladb/cql-stress";
       _build_log_file_id := fun _ _ _ => lit "id" |}
    CtxDocker 0 loader1 []
  = ([], inr (lit "cql-stress-cassandra-stress write no-warmup n=10 -node 10.0.0.7")).
Proof.
  exact (existing_node_flag_wins
           {| stress_cmd := lit "cql-stress-cassandra-stress write n=10 -node 10.0.0.7";
              timeout := 3600; stress_num := 1; keyspace_name := [];
              compaction_strategy := [];
              node_list := [{| cql_address := lit "10.0.0.1" |}];
              loader_set :=
                {| MULTI_REGION := true;
                   get_datacenter_name_per_region := fun _ => inl SSHError |};
              shell_marker := lit "marker";
              docker_image_name := lit "scylladb/cql-stress";
              _build_log_file_id := fun _ _ _ => lit "id" |}
           CtxDocker 0%Z loader1 [] eq_refl).
Defined.

(** X6.  The translation raises only the exception of the topology
    lookup, and only when it has nodes to add to a command without
    [-node] in a multi-region run. *)
Theorem translation_raises_only_from_lookup (self : Thread) (cmd_runner : ctx)
    (keyspace_idx : Z) (loader : Loader) (e : exn) :
  snd (run (create_stress_cmd self cmd_runner keyspace_idx loader)) = inl e ->
  MULTI_REGION (loader_set self) = true /\
  node_list self <> [] /\
  contains (lit "-node") (rewrite_cmd self keyspace_idx) = false /\
  get_datacenter_name_per_region (loader_set self) (node_list self) = inl e.
Proof.
  unfold run, create_stress_cmd, add_nodes, datacenter_qualifier, bind, ret,
    raise, emit.
  destruct (node_list self) as [|n ns]; [discriminate|].
  destruct (contains (lit "-node") (rewrite_cmd self keyspace_idx));
    cbn [negb]; [discriminate|].
  destruct (MULTI_REGION (loader_set self)); [|discriminate].
  destruct (get_datacenter_name_per_region (loader_set self) (n :: ns))
    as [e'|d].
  - cbn [snd]. intros H. inversion H. repeat split; discriminate.
  - destruct (d (region loader)) as [[|c dc]|]; discriminate.
Qed.

Lemma translation_raises_only_from_lookup_witness :
  MULTI_REGION (loader_set unreachable_thread) = true /\
  node_list unreachable_thread <> [] /\
  contains (lit "-node") (rewrite_cmd unreachable_thread 0) = false /\
  get_datacenter_name_per_region (loader_set unreachable_thread)
    (node_list unreachable_thread) = inl SSHError.
Proof.
  exact (translation_raises_only_from_lookup unreachable_thread CtxDocker 0%Z
           loader1 SSHError eq_refl).
Defined.

(** X7.  When the topology lookup has no datacenter for the region of
    the loader, the translation does not fail: it writes one error to the
    log and returns the command of a single-region run, the rewritten
    command followed by [ -node ] and the addresses joined by commas. *)
Theorem missing_datacenter_is_not_fatal (self : Thread) (cmd_runner : ctx)
    (keyspace_idx : Z) (loader : Loader) :
  lookup_misses self keyspace_idx loader = true ->
  run (create_stress_cmd self cmd_runner keyspace_idx loader)
  = (missing_datacenter_log loader,
     inr (rewrite_cmd self keyspace_idx ++ lit " -node "
            ++ join (lit ",") (map cql_address (node_list self)))).
Proof.
  unfold lookup_misses, run, create_stress_cmd, add_nodes, datacenter_qualifier,
    missing_datacenter_log, bind, ret, raise, emit.
  destruct (node_list self) as [|n ns]; [discriminate|].
  destruct (contains (lit "-node") (rewrite_cmd self keyspace_idx));
    cbn [negb andb]; [discriminate|].
  destruct (MULTI_REGION (loader_set self)); cbn [andb]; [|discriminate].
  destruct (get_datacenter_name_per_region (loader_set self) (n :: ns))
    as [e|d]; [discriminate|].
  destruct (d (region loader)) as [[|c dc]|]; try discriminate;
    intros _; cbn [app]; now rewrite <- !app_assoc.
Qed.

Lemma missing_datacenter_is_not_fatal_witness :
  run (create_stress_cmd multi_region_thread CtxDocker 0 loader1)
  = (missing_datacenter_log loader1,
     inr (lit "cql-stress-cassandra-stress write no-warmup n=10 -node 10.0.0.1")).
Proof.
  exact (missing_datacenter_is_not_fatal multi_region_thread CtxDocker 0%Z
           loader1 eq_refl).
Defined.

(** X8.  A command that mentions [no-warmup] and has no [ -schema ]
    token and no [-col], [-rate] or [-pop] section passes the six
    rewriting rules unchanged, whatever keyspace name and compaction
    strategy are configured: no optional section is ever inserted. *)
Theorem plain_command_unchanged (self : Thread) (keyspace_idx : Z) :
  contains NO_WARMUP (stress_cmd self) = true ->
  contains SCHEMA (stress_cmd self) = false ->
  contains (lit "-col") (stress_cmd self) = false ->
  contains (lit "-rate") (stress_cmd self) = false ->
  contains (lit "-pop") (stress_cmd self) = false ->
  rewrite_cmd self keyspace_idx = stress_cmd self.
Proof.
  intros Hw Hs Hc Hr Hp. unfold rewrite_cmd, add_no_warmup.
  rewrite Hw. cbn [negb].
  destruct (injections_absent (keyspace_name self) (compaction_strategy self)
              keyspace_idx (stress_cmd self) Hs) as [Hk Hcomp].
  rewrite Hk, Hcomp.
  unfold rewrite_col. rewrite Hc. unfold rewrite_rate. rewrite Hr.
  unfold rewrite_pop. now rewrite Hp.
Qed.

Lemma plain_command_unchanged_witness :
  rewrite_cmd (thread "cql-stress-cassandra-stress write no-warmup n=10 -mode cql3"
                 "bar" "LCS" []) 3
  = lit "cql-stress-cassandra-stress write no-warmup n=10 -mode cql3".
Proof.
  exact (plain_command_unchanged
           (thread "cql-stress-cassandra-stress write no-warmup n=10 -mode cql3"
              "bar" "LCS" []) 3%Z eq_refl eq_refl eq_refl eq_refl eq_refl).
Defined.

(** * Further properties of the orchestration *)

Module MoreOrchestrateFacts.

Lemma runs_app a b : runs (a ++ b) = runs a + runs b.
Proof. unfold runs. now rewrite filter_app, length_app. Qed.

Lemma handler_calls_app a b :
  handler_calls (a ++ b) = handler_calls a + handler_calls b.
Proof. unfold handler_calls. now rewrite filter_app, length_app. Qed.

Lemma translation_log_runs self idx loader :
  runs (if lookup_misses self idx loader
        then missing_datacenter_log loader else []) = 0.
Proof. destruct (lookup_misses self idx loader); reflexivity. Qed.

Lemma translation_log_handler_calls self idx loader :
  handler_calls (if lookup_misses self idx loader
                 then missing_datacenter_log loader else []) = 0.
Proof. destruct (lookup_misses self idx loader); reflexivity. Qed.

Ltac count_more :=
  rewrite ?phases_app, ?acquired_app, ?released_app, ?runs_app,
    ?handler_calls_app,
    ?translation_log_phases, ?translation_log_acquired,
    ?translation_log_released, ?translation_log_runs,
    ?translation_log_handler_calls;
  cbn [phases phase_of acquired released runs handler_calls filter
         List.length app Nat.add].

(** [s.split(p, 1)] has no second element when [p] does not occur. *)
Lemma after_first_absent p : forall s,
  contains p s = false -> after_first p s = None.
Proof.
  induction s as [|c s IH]; intros H.
  - simpl in H. rewrite orb_false_r in H. unfold starts_with in H.
    simpl. destruct (strip eqc p []) as [[m r]|]; [discriminate|reflexivity].
  - apply contains_false_cons in H as [H1 H2]. unfold starts_with in H1.
    cbn [after_first].
    destruct (strip eqc p (c :: s)) as [[m r]|]; [discriminate|].
    now apply IH.
Qed.

(** [s.split(None, 1)] is empty for a string of white space. *)
Lemma first_word_blank ws : forallb is_space ws = true -> first_word ws = None.
Proof.
  intros H. unfold first_word.
  pose proof (span_app is_space ws [] H I) as E. rewrite app_nil_r in E.
  now rewrite E.
Qed.

End MoreOrchestrateFacts.

Import MoreOrchestrateFacts.


(** X10.  The command runner receives the hard timeout of the thread
    and the shell command built from the translated command: the tag of
    the invocation, the shell marker, [taskset] on the CPU of the
    invocation when several stress commands share a loader, and the
    command that the translation returned. *)
Theorem runner_receives (self : Thread) (w : World) (loader : Loader)
    (loader_idx cpu_idx keyspace_idx : Z) (node_cmd : str) (hard : Z) (log : str) :
  In (EvRun node_cmd hard log)
     (fst (run (_run_cs_stress self w loader loader_idx cpu_idx keyspace_idx))) ->
  hard = hard_timeout (timeout self) /\
  exists cmd,
    snd (run (create_stress_cmd self CtxDocker keyspace_idx loader)) = inr cmd /\
    node_cmd = node_cmd_of self loader_idx cpu_idx keyspace_idx cmd.
Proof.
  remember (snd (run (create_stress_cmd self CtxDocker keyspace_idx loader)))
    as tr eqn:Htr.
  unfold_run.
  assert (Hlog : forall x,
             In x (if lookup_misses self keyspace_idx loader
                   then missing_datacenter_log loader else []) ->
             x <> EvRun node_cmd hard log).
  { intros x Hx. destruct (lookup_misses self keyspace_idx loader);
      [|contradiction]. destruct Hx as [<-|[]]. discriminate. }
  assert (Hcmd : forall cmd : str,
             lit "echo " ++
             (lit "TAG: loader_idx:" ++ of_Z loader_idx ++ lit "-cpu_idx:"
                ++ of_Z cpu_idx ++ lit "-keyspace_idx:" ++ of_Z keyspace_idx)
             ++ lit "; " ++
             (if (1 <? stress_num self)%Z
              then lit "STRESS_TEST_MARKER=" ++ shell_marker self
                     ++ lit "; taskset -c " ++ of_Z cpu_idx ++ lit " " ++ cmd
              else lit "STRESS_TEST_MARKER=" ++ shell_marker self ++ lit "; " ++ cmd)
             = node_cmd_of self loader_idx cpu_idx keyspace_idx cmd).
  { intros cmd. unfold node_cmd_of.
    destruct (1 <? stress_num self)%Z; cbn [app]; rewrite <- ?app_assoc;
      reflexivity. }
  destruct (makedirs w); [intros []|].
  destruct (after_first TOOL (stress_cmd self)) as [rest|];
    [|cbn [fst]; intros H; simpl in H; intuition discriminate].
  destruct (first_word rest) as [opt|];
    [|cbn [fst]; intros H; simpl in H; intuition discriminate].
  destruct (docker_start w);
    [cbn [fst]; intros H; simpl in H; intuition discriminate|].
  rewrite (create_stress_cmd_frame self CtxDocker CtxDocker keyspace_idx loader).
  rewrite <- Htr.
  destruct tr as [e|cmd].
  - cbn [fst]. intros H. repeat (apply in_app_iff in H as [H|H]);
      try (simpl in H; intuition discriminate).
    exfalso. exact (Hlog _ H eq_refl).
  - destruct (exporter_new w).
    + cbn [fst]. intros H. repeat (apply in_app_iff in H as [H|H]);
        try (simpl in H; intuition discriminate).
      exfalso. exact (Hlog _ H eq_refl).
    + destruct (event_new w).
      * cbn [fst]. intros H. repeat (apply in_app_iff in H as [H|H]);
          try (simpl in H; intuition discriminate).
        exfalso. exact (Hlog _ H eq_refl).
      * rewrite Hcmd.
        match goal with
        | |- context [docker_run w ?c ?h] => destruct (docker_run w c h) as [e|r]
        end;
          [destruct (is_Exception e); [destruct (on_failure w e)|]|];
          cbn [fst]; intros H;
          repeat (apply in_app_iff in H as [H|H]);
          try (simpl in H; intuition discriminate);
          try (exfalso; exact (Hlog _ H eq_refl));
          try (destruct H as [H|[]]; inversion H; subst;
               split; [reflexivity|eauto]).
Qed.

Lemma runner_receives_witness :
  3780%Z = hard_timeout (timeout (thread "cql-stress-cassandra-stress write n=10" "" "" [])) /\
  exists cmd,
    snd (run (create_stress_cmd
                (thread "cql-stress-cassandra-stress write n=10" "" "" [])
                CtxDocker 1 loader1)) = inr cmd /\
    lit "echo TAG: loader_idx:0-cpu_idx:0-keyspace_idx:1; STRESS_TEST_MARKER=marker; cql-stress-cassandra-stress write no-warmup n=10"
    = node_cmd_of (thread "cql-stress-cassandra-stress write n=10" "" "" [])
        0 0 1 cmd.
Proof.
  apply (runner_receives
           (thread "cql-stress-cassandra-stress write n=10" "" "" [])
           calm_world loader1 0 0 1 _ _
           (lit "/var/log/sct/cql-stress-cassandra-stress-write-l0-c0-k1.log")).
  vm_compute. repeat (first [left; reflexivity | right]).
Defined.

(** X11.  A stress command without the tool name, or with nothing but
    white space after it, makes the invocation raise [IndexError] right
    after the log directory is created: no container is started and
    nothing is translated or run. *)
Theorem missing_subcommand_raises (self : Thread) (w : World) (loader : Loader)
    (loader_idx cpu_idx keyspace_idx : Z) :
  makedirs w = None ->
  contains TOOL (stress_cmd self) = false \/
    (exists ws, stress_cmd self = TOOL ++ ws /\ forallb is_space ws = true) ->
  run (_run_cs_stress self w loader loader_idx cpu_idx keyspace_idx)
  = ([EvMakedirs (logdir loader)], inl IndexError).
Proof.
  intros Hm [H|(ws & Hc & Hw)]; unfold_run; rewrite Hm.
  - now rewrite (after_first_absent _ _ H).
  - rewrite Hc. 
    assert (E : after_first TOOL (TOOL ++ ws) = Some ws).
    { destruct (TOOL ++ ws) eqn:Et; [discriminate|].
      rewrite <- Et. unfold after_first.
      destruct (TOOL ++ ws) eqn:Et'; [discriminate|]. rewrite <- Et'.
      now rewrite strip_eqc_app. }
    rewrite E. now rewrite (first_word_blank _ Hw).
Qed.

Lemma missing_subcommand_raises_witness :
  run (_run_cs_stress (thread "cassandra-stress write n=10" "" "" [])
         calm_world loader1 0 0 1)
  = ([EvMakedirs (logdir loader1)], inl IndexError)
  /\
  run (_run_cs_stress (thread "cql-stress-cassandra-stress  " "" "" [])
         calm_world loader1 0 0 1)
  = ([EvMakedirs (logdir loader1)], inl IndexError).
Proof.
  split.
  - exact (missing_subcommand_raises (thread "cassandra-stress write n=10" "" "" [])
             calm_world loader1 0%Z 0%Z 1%Z eq_refl (or_introl eq_refl)).
  - exact (missing_subcommand_raises (thread "cql-stress-cassandra-stress  " "" "" [])
             calm_world loader1 0%Z 0%Z 1%Z eq_refl
             (or_intror (ex_intro _ (lit "  ") (conj eq_refl eq_refl)))).
Defined.

(** X12.  An exception of the run that does not derive from [Exception]
    is not caught: the failure handler is not called, the three context
    managers are left with the container torn down, and the exception
    reaches the caller. *)
Theorem base_exception_propagates
    (self : Thread) (w : World) (loader : Loader)
    (loader_idx cpu_idx keyspace_idx : Z) (rest opt cmd : str) (e : exn) :
  makedirs w = None ->
  after_first TOOL (stress_cmd self) = Some rest ->
  first_word rest = Some opt ->
  docker_start w = None ->
  snd (run (create_stress_cmd self CtxDocker keyspace_idx loader)) = inr cmd ->
  exporter_new w = None ->
  event_new w = None ->
  (forall node_cmd hard, docker_run w node_cmd hard = inl e) ->
  is_Exception e = false ->
  let out := run (_run_cs_stress self w loader loader_idx cpu_idx keyspace_idx) in
  snd out = inl e /\
  handler_calls (fst out) = 0 /\
  released (fst out) = 1 /\
  phases (fst out) = [Provisioning; Translating; Running; Reporting; Done].
Proof.
  intros H1 H2 H3 H4 H5 H6 H7 H8 H9. unfold_run. rewrite H1, H2, H3, H4.
  rewrite (create_stress_cmd_frame self CtxDocker CtxDocker keyspace_idx loader).
  rewrite H5, H6, H7, H8, H9. cbn [fst snd].
  repeat split; count_more; reflexivity.
Qed.

Lemma base_exception_propagates_witness :
  let out := run (_run_cs_stress
                    (thread "cql-stress-cassandra-stress write n=10" "" "" [])
                    interrupted_world loader1 0 0 1) in
  snd out = inl KeyboardInterrupt /\
  handler_calls (fst out) = 0 /\
  released (fst out) = 1 /\
  phases (fst out) = [Provisioning; Translating; Running; Reporting; Done].
Proof.
  apply (base_exception_propagates
           (thread "cql-stress-cassandra-stress write n=10" "" "" [])
           interrupted_world loader1 0 0 1 (lit " write n=10") (lit "write")
           (lit "cql-stress-cassandra-stress write no-warmup n=10")
           KeyboardInterrupt);
    reflexivity.
Defined.

(** X13.  When every step succeeds the method returns the loader, the
    result of the run and the stress event; the event names the loader,
    the stress command as configured, not as translated, and the log
    file that the runner was given, and it holds no error. *)
Theorem success_returns_event
    (self : Thread) (w : World) (loader : Loader)
    (loader_idx cpu_idx keyspace_idx : Z) (rest opt cmd : str) (r : RunResult) :
  makedirs w = None ->
  after_first TOOL (stress_cmd self) = Some rest ->
  first_word rest = Some opt ->
  docker_start w = None ->
  snd (run (create_stress_cmd self CtxDocker keyspace_idx loader)) = inr cmd ->
  exporter_new w = None ->
  event_new w = None ->
  (forall node_cmd hard, docker_run w node_cmd hard = inr r) ->
  let out := run (_run_cs_stress self w loader loader_idx cpu_idx keyspace_idx) in
  exists ev,
    snd out = inr (loader, r, ev) /\
    ev_node ev = loader /\
    ev_stress_cmd ev = stress_cmd self /\
    ev_errors ev = [] /\
    ev_log_file_name ev =
      path_join (logdir loader)
        (lit "cql-stress-cassandra-stress-" ++ opt ++ lit "-"
           ++ _build_log_file_id self loader_idx cpu_idx keyspace_idx
           ++ lit ".log") /\
    In (EvRun (node_cmd_of self loader_idx cpu_idx keyspace_idx cmd)
          (hard_timeout (timeout self)) (ev_log_file_name ev)) (fst out).
Proof.
  intros H1 H2 H3 H4 H5 H6 H7 H8. unfold_run. rewrite H1, H2, H3, H4.
  rewrite (create_stress_cmd_frame self CtxDocker CtxDocker keyspace_idx loader).
  rewrite H5, H6, H7, H8. cbn [fst snd]. eexists.
  split; [reflexivity|]. cbn [ev_node ev_stress_cmd ev_errors ev_log_file_name].
  repeat split.
  rewrite !in_app_iff. left. left. left. left. right. left.
  unfold node_cmd_of. f_equal.
  destruct (1 <? stress_num self)%Z; cbn [app]; rewrite <- ?app_assoc; reflexivity.
Qed.

Lemma success_returns_event_witness :
  exists ev,
    snd (run (_run_cs_stress
                (thread "cql-stress-cassandra-stress write n=10 -schema x" "ks1" "" [])
                calm_world loader1 0 0 1))
    = inr (loader1, {| exit_status := 0; stdout := [] |}, ev) /\
    ev_node ev = loader1 /\
    ev_stress_cmd ev = lit "cql-stress-cassandra-stress write n=10 -schema x" /\
    ev_errors ev = [] /\
    ev_log_file_name ev =
      lit "/var/log/sct/cql-stress-cassandra-stress-write-l0-c0-k1.log" /\
    In (EvRun
          (lit "echo TAG: loader_idx:0-cpu_idx:0-keyspace_idx:1; STRESS_TEST_MARKER=marker; cql-stress-cassandra-stress write no-warmup n=10 -schema keyspace=ks1 x")
          3780 (ev_log_file_name ev))
       (fst (run (_run_cs_stress
                    (thread "cql-stress-cassandra-stress write n=10 -schema x" "ks1" "" [])
                    calm_world loader1 0 0 1))).
Proof.
  exact (success_returns_event
           (thread "cql-stress-cassandra-stress write n=10 -schema x" "ks1" "" [])
           calm_world loader1 0%Z 0%Z 1%Z (lit " write n=10 -schema x") (lit "write")
           (lit "cql-stress-cassandra-stress write no-warmup n=10 -schema keyspace=ks1 x")
           {| exit_status := 0; stdout := [] |}
           eq_refl eq_refl eq_refl eq_refl eq_refl eq_refl eq_refl
           (fun _ _ => eq_refl)).
Defined.

(** X14.  Once the container is started and the translation has
    returned, the container is torn down exactly once, whether the
    exporter, the event, the run or the failure handler raise or not. *)
Theorem container_released_once
    (self : Thread) (w : World) (loader : Loader)
    (loader_idx cpu_idx keyspace_idx : Z) (rest opt cmd : str) :
  makedirs w = None ->
  after_first TOOL (stress_cmd self) = Some rest ->
  first_word rest = Some opt ->
  docker_start w = None ->
  snd (run (create_stress_cmd self CtxDocker keyspace_idx loader)) = inr cmd ->
  let out := run (_run_cs_stress self w loader loader_idx cpu_idx keyspace_idx) in
  acquired (fst out) = 1 /\ released (fst out) = 1.
Proof.
  intros H1 H2 H3 H4 H5. unfold_run. rewrite H1, H2, H3, H4.
  rewrite (create_stress_cmd_frame self CtxDocker CtxDocker keyspace_idx loader).
  rewrite H5.
  destruct (exporter_new w); [cbn [fst]; count_more; auto|].
  destruct (event_new w); [cbn [fst]; count_more; auto|].
  match goal with
  | |- context [docker_run w ?c ?h] => destruct (docker_run w c h) as [e|r]
  end.
  - destruct (is_Exception e); [destruct (on_failure w e)|];
      cbn [fst]; count_more; auto.
  - cbn [fst]. count_more. auto.
Qed.

Lemma container_released_once_witness :
  let out := run (_run_cs_stress
                    (thread "cql-stress-cassandra-stress write n=10" "" "" [])
                    timeout_world loader1 0 0 1) in
  acquired (fst out) = 1 /\ released (fst out) = 1.
Proof.
  apply (container_released_once
           (thread "cql-stress-cassandra-stress write n=10" "" "" [])
           timeout_world loader1 0 0 1 (lit " write n=10") (lit "write")
           (lit "cql-stress-cassandra-stress write no-warmup n=10"));
    reflexivity.
Defined.

(** X15.  When the container cannot be started the exception of the
    container reaches the caller at once: the command is not translated,
    nothing is run and no failure is recorded on an event. *)
Theorem provisioning_failure_propagates
    (self : Thread) (w : World) (loader : Loader)
    (loader_idx cpu_idx keyspace_idx : Z) (rest opt : str) (e : exn) :
  makedirs w = None ->
  after_first TOOL (stress_cmd self) = Some rest ->
  first_word rest = Some opt ->
  docker_start w = Some e ->
  let out := run (_run_cs_stress self w loader loader_idx cpu_idx keyspace_idx) in
  snd out = inl e /\ phases (fst out) = [] /\
  handler_calls (fst out) = 0 /\ acquired (fst out) = 0.
Proof.
  intros H1 H2 H3 H4. unfold_run. rewrite H1, H2, H3, H4. cbn [fst snd].
  repeat split.
Qed.

Lemma provisioning_failure_propagates_witness :
  let out := run (_run_cs_stress
                    (thread "cql-stress-cassandra-stress write n=10" "" "" [])
                    {| makedirs := None; docker_start := Some SSHError;
                       exporter_new := None; event_new := None;
                       docker_run := fun _ _ => inl TimeoutError;
                       on_failure := fun _ => None |}
                    loader1 0 0 1) in
  snd out = inl SSHError /\ phases (fst out) = [] /\
  handler_calls (fst out) = 0 /\ acquired (fst out) = 0.
Proof.
  apply (provisioning_failure_propagates
           (thread "cql-stress-cassandra-stress write n=10" "" "" [])
           {| makedirs := None; docker_start := Some SSHError;
              exporter_new := None; event_new := None;
              docker_run := fun _ _ => inl TimeoutError;
              on_failure := fun _ => None |}
           loader1 0 0 1 (lit " write n=10") (lit "write") SSHError);
    reflexivity.
Defined.

(** X16.  The hard timeout is never below the soft timeout and exceeds
    it by at most a twentieth; it grows with the soft timeout, and a
    soft timeout below 20 seconds is not prolonged at all. *)
Theorem hard_timeout_margin (t u : Z) :
  (0 <= t <= u)%Z -> (u < 2 ^ 50)%Z ->
  (t <= hard_timeout t)%Z /\
  (20 * (hard_timeout t - t) <= t)%Z /\
  (hard_timeout t <= hard_timeout u)%Z /\
  (hard_timeout t = t <-> t < 20)%Z.
Proof.
  intros Ht Hu. unfold hard_timeout.
  rewrite !int_mul_005_twentieth by lia.
  pose proof (Z.div_mod t 20 ltac:(lia)) as Hd.
  pose proof (Z.mod_pos_bound t 20 ltac:(lia)) as Hr.
  pose proof (Z.div_le_mono t u 20 ltac:(lia) ltac:(lia)) as Hm.
  assert (0 <= t / 20)%Z by (apply Z.div_pos; lia).
  repeat split; lia.
Qed.

Lemma hard_timeout_margin_witness :
  (19 <= hard_timeout 19)%Z /\
  (20 * (hard_timeout 19 - 19) <= 19)%Z /\
  (hard_timeout 19 <= hard_timeout 3600)%Z /\
  (hard_timeout 19 = 19 <-> 19 < 20)%Z.
Proof.
  apply (hard_timeout_margin 19 3600); [lia|reflexivity].
Defined.

(** X17.  With a compaction strategy configured, a command with a
    [ -schema ] token and no compaction clause receives the quoted
    clause right after [-schema]; a command that already has a
    compaction clause, and any command when no strategy is configured,
    is left as it is. *)
Theorem compaction_injected (strategy cmd : str) :
  contains SCHEMA cmd = true ->
  let out := inject_compaction strategy cmd in
  if truthy strategy && negb (contains COMPACTION cmd) then
    contains (lit " -schema 'compaction(strategy=" ++ strategy ++ lit ")' ") out
      = true
  else out = cmd.
Proof.
  intros H out. subst out. unfold inject_compaction.
  destruct (truthy strategy && negb (contains COMPACTION cmd)); [|reflexivity].
  destruct (replace_leftmost SCHEMA
              (lit " -schema 'compaction(strategy=" ++ strategy ++ lit ")' ")
              SCHEMA_nonempty cmd H) as (pre & suf & _ & ->).
  apply contains_app.
Qed.

Lemma compaction_injected_witness :
  contains (lit " -schema 'compaction(strategy=LeveledCompactionStrategy)' ")
    (inject_compaction (lit "LeveledCompactionStrategy")
       (lit "cql-stress-cassandra-stress write -schema replication(factor=3) -rate threads=4"))
  = true.
Proof.
  exact (compaction_injected (lit "LeveledCompactionStrategy")
           (lit "cql-stress-cassandra-stress write -schema replication(factor=3) -rate threads=4")
           eq_refl).
Defined.

(** X18.  The container is started from the image of the thread with
    host networking, the shell marker as a label and [/bin/bash] as entry
    point, and it is bound to the CPU of the invocation exactly when
    several stress commands share a loader, the case in which the
    command runs under [taskset] on the same CPU. *)
Theorem container_options (self : Thread) (w : World) (loader : Loader)
    (loader_idx cpu_idx keyspace_idx : Z) (image opts : str) :
  In (EvAcquire image opts)
     (fst (run (_run_cs_stress self w loader loader_idx cpu_idx keyspace_idx))) ->
  image = docker_image_name self /\
  opts = (if (1 <? stress_num self)%Z
          then lit "--cpuset-cpus=" ++ DQUOTE ++ of_Z cpu_idx ++ DQUOTE
          else [])
         ++ lit " --network=host --label shell_marker=" ++ shell_marker self
         ++ lit " --entrypoint /bin/bash".
Proof.
  unfold_run.
  assert (Hlog : forall x,
             In x (if lookup_misses self keyspace_idx loader
                   then missing_datacenter_log loader else []) ->
             x <> EvAcquire image opts).
  { intros x Hx. destruct (lookup_misses self keyspace_idx loader);
      [|contradiction]. destruct Hx as [<-|[]]. discriminate. }
  destruct (makedirs w); [intros []|].
  destruct (after_first TOOL (stress_cmd self)) as [rest|];
    [|cbn [fst]; intros H; simpl in H; intuition discriminate].
  destruct (first_word rest) as [opt|];
    [|cbn [fst]; intros H; simpl in H; intuition discriminate].
  destruct (docker_start w);
    [cbn [fst]; intros H; simpl in H; intuition discriminate|].
  rewrite (create_stress_cmd_frame self CtxDocker CtxDocker keyspace_idx loader).
  destruct (snd (run (create_stress_cmd self CtxDocker keyspace_idx loader)))
    as [e|cmd];
    [|destruct (exporter_new w);
      [|destruct (event_new w);
        [|match goal with
          | |- context [docker_run w ?c ?h] =>
              destruct (docker_run w c h) as [e|r];
              [destruct (is_Exception e); [destruct (on_failure w e)|]|]
          end]]];
    cbn [fst]; intros H;
    repeat (apply in_app_iff in H as [H|H]);
    try (exfalso; exact H);
    try (exfalso; exact (Hlog _ H eq_refl));
    try (destruct H as [H|[]]; try discriminate H; inversion H; subst;
         split; reflexivity).
Qed.

Lemma container_options_witness :
  lit "scylladb/cql-stress"
  = docker_image_name (thread "cql-stress-cassandra-stress write n=10" "" "" []) /\
  lit " --network=host --label shell_marker=marker --entrypoint /bin/bash"
  = (if (1 <? stress_num (thread "cql-stress-cassandra-stress write n=10" "" "" []))%Z
     then lit "--cpuset-cpus=" ++ DQUOTE ++ of_Z 0 ++ DQUOTE
     else [])
    ++ lit " --network=host --label shell_marker="
    ++ shell_marker (thread "cql-stress-cassandra-stress write n=10" "" "" [])
    ++ lit " --entrypoint /bin/bash".
Proof.
  apply (container_options
           (thread "cql-stress-cassandra-stress write n=10" "" "" [])
           calm_world loader1 0 0 1).
  vm_compute. repeat (first [left; reflexivity | right]).
Defined.


